(** * Execution frames of hyperdiv (src/hyperdiv/frame.py)

    A shallow embedding of the frame classes: the context-local "current
    frame" slot, the enter/exit bracket, the class-level lookup [current],
    and the state-access methods of every frame class, followed by the
    properties the specification states about them.

    Python objects that are mutated in place (the context variable, the
    token stored on a frame, the state store, the sets kept by a frame, the
    logger) are modelled by explicit state passing; exceptions by an outcome
    type.  The collaborators reached through [self._app_runner] are not part
    of frame.py; they are modelled from the specification's interface table
    and every call to one of them is recorded in a call log. *)

From stdpp Require Import base option list strings gmap sets.

(** String literals are read as strings; [++] stays the append of lists and
    [+:+] joins strings. *)
Local Open Scope string_scope.
Local Open Scope list_scope.

(** ** Python values, exceptions, outcomes *)

(** Keys and property names are strings; a property is identified by the
    pair (key, prop_name). *)
Definition Key := string.
Definition PropName := string.
Definition PropId := (Key * PropName)%type.

Inductive PyValue :=
| PyNone
| PyBool (b : bool)
| PyInt (z : Z)
| PyStr (s : string).

#[global] Instance PyValue_eq_dec : EqDecision PyValue.
Proof. solve_decision. Defined.

(** Python's [==] on these values: [bool] is a subclass of [int], so
    [True == 1] and [False == 0]. *)
Definition py_eqb (a b : PyValue) : bool :=
  match a, b with
  | PyNone, PyNone => true
  | PyBool x, PyBool y => bool_decide (x = y)
  | PyBool x, PyInt z | PyInt z, PyBool x => bool_decide (Z.b2z x = z)
  | PyInt x, PyInt y => bool_decide (x = y)
  | PyStr x, PyStr y => bool_decide (x = y)
  | _, _ => false
  end.

(** Truth value used by [if value:]. *)
Definition truthy (v : PyValue) : bool :=
  match v with
  | PyNone => false
  | PyBool b => b
  | PyInt z => negb (bool_decide (z = 0%Z))
  | PyStr s => negb (bool_decide (s = ""%string))
  end.

(** The exception classes raised in, or propagated through, frame.py. *)
Inductive Exn :=
| RuntimeError (msg : string)
| ValueError (msg : string)
| Exception_ (msg : string)
| KeyError (k : string)
| AttributeError (msg : string).

#[global] Instance Exn_eq_dec : EqDecision Exn.
Proof. solve_decision. Defined.

Inductive Outcome (A : Type) :=
| Returns (a : A)
| Raises (e : Exn).
Arguments Returns {A} a.
Arguments Raises {A} e.

(** A computation over a mutable state [S]: side effects made before an
    exception is raised stay in the state. *)
Definition Py (S A : Type) : Type := S → Outcome A * S.

Definition ret {S A} (a : A) : Py S A := λ s, (Returns a, s).
Definition raise {S A} (e : Exn) : Py S A := λ s, (Raises e, s).
Definition bind {S A B} (m : Py S A) (k : A → Py S B) : Py S B :=
  λ s, match m s with
       | (Returns a, s') => k a s'
       | (Raises e, s') => (Raises e, s')
       end.
Definition gets {S A} (f : S → A) : Py S A := λ s, (Returns (f s), s).
Definition modify {S} (f : S → S) : Py S () := λ s, (Returns (), f s).

(** stdpp's monad notation [x ← m; k] and [m;; k] for [Py S]. *)
#[global] Instance Py_ret {S} : MRet (Py S) := λ A, ret.
#[global] Instance Py_bind {S} : MBind (Py S) := λ A B k m, bind m k.

(** [try: x = m  except KeyError: handler] followed by [cont x]: the
    handler's result is the result of the whole function (it ends in
    [return]); any other exception propagates. *)
Definition try_except_KeyError {S A B}
    (m : Py S A) (handler : Py S B) (cont : A → Py S B) : Py S B :=
  λ s, match m s with
       | (Returns a, s') => cont a s'
       | (Raises (KeyError _), s') => handler s'
       | (Raises e, s') => (Raises e, s')
       end.

(** [try: m  finally: f] — [f] runs on every exit path; when [f] itself
    raises, its exception replaces the pending one. *)
Definition try_finally {S A} (m : Py S A) (f : Py S ()) : Py S A :=
  λ s, match m s with
       | (r, s') =>
           match f s' with
           | (Returns _, s'') => (r, s'')
           | (Raises e, s'') => (Raises e, s'')
           end
       end.

(** ** Frame classes *)

Inductive FrameClass :=
| C_Frame
| C_StateAccessFrame
| C_AppRunnerFrame
| C_TaskFrame
| C_UIUpdatesFrame
| C_ResetUIEventsFrame
| C_RenderFrame.

#[global] Instance FrameClass_eq_dec : EqDecision FrameClass.
Proof. solve_decision. Defined.

(** [cls.__name__] *)
Definition __name__ (c : FrameClass) : string :=
  match c with
  | C_Frame => "Frame"
  | C_StateAccessFrame => "StateAccessFrame"
  | C_AppRunnerFrame => "AppRunnerFrame"
  | C_TaskFrame => "TaskFrame"
  | C_UIUpdatesFrame => "UIUpdatesFrame"
  | C_ResetUIEventsFrame => "ResetUIEventsFrame"
  | C_RenderFrame => "RenderFrame"
  end.

(** [str(cls)], as interpolated by an f-string. *)
Definition class_str (c : FrameClass) : string :=
  "<class 'hyperdiv.frame." +:+ __name__ c +:+ "'>".

(** The base class named in each [class X(Base)] header. *)
Definition base_class (c : FrameClass) : option FrameClass :=
  match c with
  | C_Frame => None
  | C_StateAccessFrame => Some C_Frame
  | C_AppRunnerFrame | C_TaskFrame | C_UIUpdatesFrame
  | C_ResetUIEventsFrame | C_RenderFrame => Some C_StateAccessFrame
  end.

(** [issubclass(c, d)]: walk the chain of base classes (at most three
    classes long). *)
Fixpoint issubclass_fuel (n : nat) (c d : FrameClass) : bool :=
  if bool_decide (c = d) then true
  else match n with
       | O => false
       | S n' => match base_class c with
                 | Some b => issubclass_fuel n' b d
                 | None => false
                 end
       end.
Definition issubclass (c d : FrameClass) : bool := issubclass_fuel 2 c d.

(** A reference to a frame object: its identity and its (fixed) class. *)
Record FrameRef := { frame_id : nat; frame_type : FrameClass }.

#[global] Instance FrameRef_eq_dec : EqDecision FrameRef.
Proof. solve_decision. Defined.

(** [isinstance(frame, cls)] *)
Definition isinstance (frame : FrameRef) (cls : FrameClass) : bool :=
  issubclass (frame_type frame) cls.

(** ** The world a frame runs in *)

(** The token returned by [ContextVar.set]: the value the variable held
    before ([None]: it held none), and whether the token was already used by
    a [reset].  The only reference to a token is the attribute
    [self._current_frame_token] of the frame that was entered. *)
Record Token := { old_value : option FrameRef; used : bool }.

(** Modelled from the spec: a property as the state store keeps it, with
    the two flags the spec names, its current value and the default a reset
    returns it to (the store is not part of frame.py). *)
Record PropCell := {
  cell_is_event_prop : bool;
  cell_backend_immutable : bool;
  cell_value : PyValue;
  cell_default : PyValue
}.

(** Modelled from the spec: the property descriptor object handed out by
    the state store: identity and the two flags frame.py reads.  Its current
    value stays in the store, so a change made by the store after the lookup
    is seen through the descriptor, as with the Python object. *)
Record StoredProp := {
  pkey : Key;
  pname : PropName;
  is_event_prop : bool;
  backend_immutable : bool
}.

Definition prop_id (prop : StoredProp) : PropId := (pkey prop, pname prop).

(** The calls frame.py makes on the collaborators behind
    [self._app_runner], with their arguments. *)
Inductive Call :=
| call_state_get_prop (k : Key) (p : PropName)
| call_state__get (k : Key) (p : PropName)
| call_state__update (k : Key) (p : PropName) (v : PyValue)
| call_state__reset (k : Key) (p : PropName)
| call_state_init_props (k : Key) (pv : list (PropName * PropCell))
| call_state_has_prop (k : Key) (p : PropName)
| call_state_get_props (k : Key)
| call_ui_prop_state_set_prop_value (prop : StoredProp)
| call_ui_prop_state_prop_changed (prop : StoredProp)
| call_trigger_event (prop : StoredProp) (v : PyValue)
| call_enqueue_task_mutations (l : list PropId).

#[global] Instance PropCell_eq_dec : EqDecision PropCell.
Proof. solve_decision. Defined.
#[global] Instance StoredProp_eq_dec : EqDecision StoredProp.
Proof. solve_decision. Defined.
#[global] Instance Call_eq_dec : EqDecision Call.
Proof. solve_decision. Defined.

Inductive LogLevel := DEBUG | WARNING.

Record World := {
  (** [Frame._current_frame], the context variable, in the running
      context: [None] when it has no value. *)
  _current_frame : option FrameRef;
  (** the attribute [_current_frame_token] of each frame object, by
      identity; absent until the frame is entered. *)
  _current_frame_token : gmap nat Token;
  (** what was written to [logger]. *)
  logger : list (LogLevel * string);
  (** [app_runner.state] *)
  state : gmap Key (gmap PropName PropCell);
  (** [app_runner.ui_prop_state]: per property, the value the client is
      known to have. *)
  ui_prop_state : gmap PropId PyValue;
  (** the queue filled by [app_runner.enqueue_task_mutations]. *)
  task_mutations : list PropId;
  (** the events handed to [app_runner.trigger_event]. *)
  events : list (StoredProp * PyValue);
  (** the calls made on the collaborators, oldest first. *)
  calls : list Call
}.

Definition set__current_frame (v : option FrameRef) (w : World) : World :=
  {| _current_frame := v; _current_frame_token := _current_frame_token w;
     logger := logger w; state := state w; ui_prop_state := ui_prop_state w;
     task_mutations := task_mutations w; events := events w;
     calls := calls w |}.
Definition set__current_frame_token (v : gmap nat Token) (w : World) : World :=
  {| _current_frame := _current_frame w; _current_frame_token := v;
     logger := logger w; state := state w; ui_prop_state := ui_prop_state w;
     task_mutations := task_mutations w; events := events w;
     calls := calls w |}.
Definition set_logger (v : list (LogLevel * string)) (w : World) : World :=
  {| _current_frame := _current_frame w;
     _current_frame_token := _current_frame_token w;
     logger := v; state := state w; ui_prop_state := ui_prop_state w;
     task_mutations := task_mutations w; events := events w;
     calls := calls w |}.
Definition set_state (v : gmap Key (gmap PropName PropCell)) (w : World)
  : World :=
  {| _current_frame := _current_frame w;
     _current_frame_token := _current_frame_token w;
     logger := logger w; state := v; ui_prop_state := ui_prop_state w;
     task_mutations := task_mutations w; events := events w;
     calls := calls w |}.
Definition set_ui_prop_state (v : gmap PropId PyValue) (w : World) : World :=
  {| _current_frame := _current_frame w;
     _current_frame_token := _current_frame_token w;
     logger := logger w; state := state w; ui_prop_state := v;
     task_mutations := task_mutations w; events := events w;
     calls := calls w |}.
Definition set_task_mutations (v : list PropId) (w : World) : World :=
  {| _current_frame := _current_frame w;
     _current_frame_token := _current_frame_token w;
     logger := logger w; state := state w; ui_prop_state := ui_prop_state w;
     task_mutations := v; events := events w; calls := calls w |}.
Definition set_events (v : list (StoredProp * PyValue)) (w : World) : World :=
  {| _current_frame := _current_frame w;
     _current_frame_token := _current_frame_token w;
     logger := logger w; state := state w; ui_prop_state := ui_prop_state w;
     task_mutations := task_mutations w; events := v; calls := calls w |}.
Definition set_calls (v : list Call) (w : World) : World :=
  {| _current_frame := _current_frame w;
     _current_frame_token := _current_frame_token w;
     logger := logger w; state := state w; ui_prop_state := ui_prop_state w;
     task_mutations := task_mutations w; events := events w; calls := v |}.

(** [logger.debug(msg)], [logger.warn(msg)] *)
Definition logger_debug (msg : string) : Py World () :=
  modify (λ w, set_logger (logger w ++ [(DEBUG, msg)]) w).
Definition logger_warn (msg : string) : Py World () :=
  modify (λ w, set_logger (logger w ++ [(WARNING, msg)]) w).

Definition called (c : Call) : Py World () :=
  modify (λ w, set_calls (calls w ++ [c]) w).

(** ** The error taxonomy of the specification, as raised by frame.py *)

Definition NoActiveFrame : Exn :=
  RuntimeError "There's no active Hyperdiv frame.".
Definition WrongFrame (cls got : FrameClass) : Exn :=
  RuntimeError
    ("Wrong frame: Expected " +:+ class_str cls +:+ " but got " +:+ class_str got).
Definition IllegalMutation (prop_name : PropName) : Exn :=
  ValueError ("Prop " +:+ prop_name +:+ " cannot be mutated.").
(** [IllegalReset] has two wordings: the one of [StateAccessFrame] and the
    one of [ResetUIEventsFrame]. *)
Definition IllegalReset (prop_name : PropName) : Exn :=
  ValueError ("Event prop " +:+ prop_name +:+ " cannot be reset.").
Definition IllegalResetNonEvent (prop_name : PropName) : Exn :=
  ValueError ("Cannot reset non-event prop " +:+ prop_name +:+ ".").
Definition AccessDenied : Exn := Exception_ "Cannot access state.".
Definition UnknownProperty (missing : string) : Exn := KeyError missing.

(** ** contextvars.ContextVar, for the one variable [Frame._current_frame] *)

Module ContextVar.

(** [var.set(value)]: returns the token that remembers the old value. *)
Definition set (value : FrameRef) : Py World Token :=
  old ← gets _current_frame;
  modify (set__current_frame (Some value));;
  mret {| old_value := old; used := false |}.

(** [var.get(None)] *)
Definition get : Py World (option FrameRef) := gets _current_frame.

(** [var.reset(token)] for the token kept by frame [owner]: a token
    restores its old value once; a second use raises [RuntimeError] (whose
    message starts with the token's [repr], shortened here). *)
Definition reset (owner : nat) (token : Token) : Py World () :=
  if used token then
    raise (RuntimeError "<Token> has already been used once")
  else
    modify (set__current_frame (old_value token));;
    modify (λ w, set__current_frame_token
                   (<[owner := {| old_value := old_value token;
                                  used := true |}]>
                      (_current_frame_token w)) w).

End ContextVar.

(** ** class Frame *)

Module Frame.

Definition __enter__ (self : FrameRef) : Py World FrameRef :=
  token ← ContextVar.set self;
  modify (λ w, set__current_frame_token
                 (<[frame_id self := token]> (_current_frame_token w)) w);;
  logger_debug ("----- Enter " +:+ __name__ (frame_type self) +:+ " -----");;
  mret self.

Definition __exit__ (self : FrameRef) : Py World () :=
  logger_debug ("----- Exit " +:+ __name__ (frame_type self) +:+ " -----");;
  token ← gets (λ w, _current_frame_token w !! frame_id self);
  match token with
  | None =>
      raise (AttributeError
               ("'" +:+ __name__ (frame_type self)
                    +:+ "' object has no attribute '_current_frame_token'"))
  | Some token => ContextVar.reset (frame_id self) token
  end.

(** [cls.current()].  No frame class defines [__bool__] or [__len__], so
    [not frame] holds only for [None]. *)
Definition current (cls : FrameClass) : Py World FrameRef :=
  frame ← ContextVar.get;
  match frame with
  | None => raise NoActiveFrame
  | Some frame =>
      if negb (isinstance frame cls) then
        raise (WrongFrame cls (frame_type frame))
      else mret frame
  end.

End Frame.

(** [with self: body] — [__enter__], then the body, then [__exit__] on
    every exit path; [__exit__] returns [None], so an exception raised by the
    body propagates. *)
Definition with_ {A} (self : FrameRef) (body : Py World A) : Py World A :=
  Frame.__enter__ self;; try_finally body (Frame.__exit__ self).

(** ** Collaborators behind [self._app_runner] *)

Module State.

(** Modelled from the spec: the stored property (key, prop), if any. *)
Definition cell (k : Key) (p : PropName) (w : World) : option PropCell :=
  state w !! k ≫= λ props, props !! p.

(** Modelled from the spec: storing a new value for a stored property. *)
Definition put_value (k : Key) (p : PropName) (v : PyValue) (w : World)
  : World :=
  match state w !! k with
  | Some props =>
      match props !! p with
      | Some c =>
          set_state
            (<[k := <[p := {| cell_is_event_prop := cell_is_event_prop c;
                              cell_backend_immutable :=
                                cell_backend_immutable c;
                              cell_value := v;
                              cell_default := cell_default c |}]> props]>
               (state w)) w
      | None => w
      end
  | None => w
  end.

(** Modelled from the spec: indexing the store by key, then by property
    name; either step fails with UnknownProperty, Python's [KeyError]. *)
Definition lookup_cell (k : Key) (p : PropName) : Py World PropCell :=
  st ← gets state;
  match st !! k with
  | None => raise (UnknownProperty k)
  | Some props =>
      match props !! p with
      | None => raise (UnknownProperty p)
      | Some c => mret c
      end
  end.

(** Modelled from the spec: the state store's [get_prop(key, prop) ->
    descriptor, fails UnknownProperty] (the store is not part of
    frame.py).  The failure is Python's [KeyError], which is what
    frame.py catches. *)
Definition get_prop (k : Key) (p : PropName) : Py World StoredProp :=
  called (call_state_get_prop k p);;
  c ← lookup_cell k p;
  mret {| pkey := k; pname := p;
          is_event_prop := cell_is_event_prop c;
          backend_immutable := cell_backend_immutable c |}.

(** Modelled from the spec: the state store's [get(key, prop) -> value]. *)
Definition _get (k : Key) (p : PropName) : Py World PyValue :=
  called (call_state__get k p);;
  c ← lookup_cell k p;
  mret (cell_value c).

(** Modelled from the spec: the state store's [set(key, prop, value) ->
    bool], which reports whether a change actually occurred (the value
    differed from the current one). *)
Definition _update (k : Key) (p : PropName) (v : PyValue) : Py World bool :=
  called (call_state__update k p v);;
  c ← lookup_cell k p;
  if py_eqb (cell_value c) v then mret false
  else modify (put_value k p v);; mret true.

(** Modelled from the spec: the state store's [reset(key, prop) -> bool]:
    back to the property's default, reporting whether that changed it. *)
Definition _reset (k : Key) (p : PropName) : Py World bool :=
  called (call_state__reset k p);;
  c ← lookup_cell k p;
  if py_eqb (cell_value c) (cell_default c) then mret false
  else modify (put_value k p (cell_default c));; mret true.

(** Modelled from the spec: the state store's [init_props]; the spec
    gives its name only.  Here it creates the properties of [k] that do
    not exist yet. *)
Definition init_props (k : Key) (props_with_values : list (PropName * PropCell))
  : Py World () :=
  called (call_state_init_props k props_with_values);;
  modify (λ w, set_state
                 (<[k := default ∅ (state w !! k)
                           ∪ list_to_map props_with_values]> (state w)) w).

(** Modelled from the spec: the state store's [has_prop]. *)
Definition has_prop (k : Key) (p : PropName) : Py World bool :=
  called (call_state_has_prop k p);;
  gets (λ w, bool_decide (is_Some (cell k p w))).

(** Modelled from the spec: the state store's [get_props]: the names and
    values of the properties of [k]. *)
Definition get_props (k : Key) : Py World (list (PropName * PyValue)) :=
  called (call_state_get_props k);;
  st ← gets state;
  match st !! k with
  | None => raise (UnknownProperty k)
  | Some props => mret (map_to_list (cell_value <$> props))
  end.

End State.

Module UIPropState.

(** Modelled from the spec: the value a descriptor shows now; it is read
    through the store. *)
Definition value_of (prop : StoredProp) (w : World) : option PyValue :=
  cell_value <$> State.cell (pkey prop) (pname prop) w.

(** Modelled from the spec: the outgoing-diff tracker's
    [set_prop_value(prop)], which takes the property's current value as
    the one the client has. *)
Definition set_prop_value (prop : StoredProp) : Py World () :=
  called (call_ui_prop_state_set_prop_value prop);;
  modify (λ w, set_ui_prop_state
                 (match value_of prop w with
                  | Some v => <[prop_id prop := v]> (ui_prop_state w)
                  | None => delete (prop_id prop) (ui_prop_state w)
                  end) w).

(** Modelled from the spec: the outgoing-diff tracker's
    [prop_changed(prop) -> bool]: whether the property differs from what
    was last sent to the client. *)
Definition prop_changed (prop : StoredProp) : Py World bool :=
  called (call_ui_prop_state_prop_changed prop);;
  gets (λ w, bool_decide (ui_prop_state w !! prop_id prop ≠ value_of prop w)).

End UIPropState.

Module AppRunner.

(** Modelled from the spec: the runner's [trigger_event(prop, value)]. *)
Definition trigger_event (prop : StoredProp) (value : PyValue) : Py World () :=
  called (call_trigger_event prop value);;
  modify (λ w, set_events (events w ++ [(prop, value)]) w).

(** Modelled from the spec: the runner's
    [enqueue_task_mutations(list[(key, prop)])], the cross-context
    mutation queue. *)
Definition enqueue_task_mutations (l : list PropId) : Py World () :=
  called (call_enqueue_task_mutations l);;
  modify (λ w, set_task_mutations (task_mutations w ++ l) w).

End AppRunner.

(** ** class StateAccessFrame(Frame)

    Its methods use [self] only to reach [self._app_runner]. *)

Module StateAccessFrame.

Definition get_state (key : Key) (prop_name : PropName) : Py World PyValue :=
  State._get key prop_name.

Definition update_state (key : Key) (prop_name : PropName) (value : PyValue)
  : Py World PyValue :=
  prop ← State.get_prop key prop_name;
  if is_event_prop prop || backend_immutable prop then
    raise (IllegalMutation prop_name)
  else
    updated ← State._update key prop_name value;
    mret (PyBool updated).

Definition reset_state (key : Key) (prop_name : PropName)
  : Py World PyValue :=
  prop ← State.get_prop key prop_name;
  if is_event_prop prop then
    raise (IllegalReset prop_name)
  else
    updated ← State._reset key prop_name;
    mret (PyBool updated).

Definition init_props (key : Key)
    (props_with_values : list (PropName * PropCell)) : Py World PyValue :=
  State.init_props key props_with_values;;
  mret PyNone.

Definition has_prop (key : Key) (prop_name : PropName) : Py World bool :=
  State.has_prop key prop_name.

Definition get_props (key : Key) : Py World (list (PropName * PyValue)) :=
  State.get_props key.

Definition trigger_event (key : Key) (prop_name : PropName) (value : PyValue)
  : Py World PyValue :=
  prop ← State.get_prop key prop_name;
  AppRunner.trigger_event prop value;;
  mret PyNone.

End StateAccessFrame.

(** A method of a subclass runs on the frame's own attributes [T] and the
    world.  [super_] runs a [StateAccessFrame] method, which leaves the
    attributes alone; [on_self] changes the attributes. *)
Definition super_ {T A} (m : Py World A) : Py (T * World) A :=
  λ s, match m s.2 with (r, w') => (r, (s.1, w')) end.
Definition on_self {T} (f : T → T) : Py (T * World) () :=
  modify (λ s, (f s.1, s.2)).

(** ** class AppRunnerFrame(StateAccessFrame) *)

Module AppRunnerFrame.

(** The attributes set by [__init__] that this development uses (the
    collector stack belongs to another module). *)
Record t := {
  prev_frame_mutations : gset PropId;
  keys : gset Key;
  deps : gset PropId;
  mutations : gset PropId;
  scope_stack : list string
}.

(** [prev_frame_mutations if prev_frame_mutations else set()]: [None] and
    the empty set are both falsy. *)
Definition __init__ (prev_frame_mutations : option (gset PropId)) : t :=
  {| prev_frame_mutations :=
       match prev_frame_mutations with
       | Some s => if bool_decide (s = ∅) then ∅ else s
       | None => ∅
       end;
     keys := ∅; deps := ∅; mutations := ∅; scope_stack := [] |}.

Definition add_dep (d : PropId) (self : t) : t :=
  {| prev_frame_mutations := prev_frame_mutations self; keys := keys self;
     deps := {[d]} ∪ deps self; mutations := mutations self;
     scope_stack := scope_stack self |}.
Definition add_mutation (d : PropId) (self : t) : t :=
  {| prev_frame_mutations := prev_frame_mutations self; keys := keys self;
     deps := deps self; mutations := {[d]} ∪ mutations self;
     scope_stack := scope_stack self |}.

Definition get_state (key : Key) (prop_name : PropName)
  : Py (t * World) PyValue :=
  value ← super_ (StateAccessFrame.get_state key prop_name);
  on_self (add_dep (key, prop_name));;
  mret value.

Definition update_state (key : Key) (prop_name : PropName) (value : PyValue)
  : Py (t * World) PyValue :=
  updated ← super_ (StateAccessFrame.update_state key prop_name value);
  (if truthy updated then on_self (add_mutation (key, prop_name))
   else mret ());;
  mret PyNone.

Definition reset_state (key : Key) (prop_name : PropName)
  : Py (t * World) PyValue :=
  updated ← super_ (StateAccessFrame.reset_state key prop_name);
  (if truthy updated then on_self (add_mutation (key, prop_name))
   else mret ());;
  mret PyNone.

Definition filter_dirty_deps (self : t) (deps : gset PropId) : gset PropId :=
  let mutations := mutations self ∪ prev_frame_mutations self in
  mutations ∩ deps.

Definition deps_are_dirty (self : t) (deps : gset PropId) : bool :=
  bool_decide (0 < size (filter_dirty_deps self deps)).

Definition set_scope_stack (v : list string) (self : t) : t :=
  {| prev_frame_mutations := prev_frame_mutations self; keys := keys self;
     deps := deps self; mutations := mutations self; scope_stack := v |}.

(** [list.pop()] on an empty list. *)
Inductive PopError := IndexError (msg : string).

(** [self.scope_stack.append(scope_key)] *)
Definition push_scope (scope_key : string) (self : t) : t :=
  set_scope_stack (scope_stack self ++ [scope_key]) self.

(** [self.scope_stack.pop()]: drops the last element; fails on an empty
    stack.  The popped element is not returned by [pop_scope]. *)
Definition pop_scope (self : t) : PopError + t :=
  match scope_stack self with
  | [] => inl (IndexError "pop from empty list")
  | _ :: _ =>
      inr (set_scope_stack
             (take (length (scope_stack self) - 1) (scope_stack self)) self)
  end.

End AppRunnerFrame.

(** ** class TaskFrame(StateAccessFrame) *)

Module TaskFrame.

Definition update_state (key : Key) (prop_name : PropName) (value : PyValue)
  : Py World PyValue :=
  updated ← StateAccessFrame.update_state key prop_name value;
  (if truthy updated then
     AppRunner.enqueue_task_mutations [(key, prop_name)]
   else mret ());;
  mret PyNone.

Definition reset_state (key : Key) (prop_name : PropName)
  : Py World PyValue :=
  updated ← StateAccessFrame.reset_state key prop_name;
  (if truthy updated then
     AppRunner.enqueue_task_mutations [(key, prop_name)]
   else mret ());;
  mret PyNone.

End TaskFrame.

(** ** class UIUpdatesFrame(StateAccessFrame) *)

Module UIUpdatesFrame.

Record t := {
  mutations : gset PropId;
  event_mutations : gset PropId
}.

Definition __init__ : t := {| mutations := ∅; event_mutations := ∅ |}.

Definition add_mutation (d : PropId) (self : t) : t :=
  {| mutations := {[d]} ∪ mutations self;
     event_mutations := event_mutations self |}.
Definition add_event_mutation (d : PropId) (self : t) : t :=
  {| mutations := mutations self;
     event_mutations := {[d]} ∪ event_mutations self |}.

Definition update_state (key : Key) (prop_name : PropName) (value : PyValue)
  : Py (t * World) PyValue :=
  try_except_KeyError
    (super_ (T:=t) (State.get_prop key prop_name))
    (super_ (T:=t) (logger_warn
               ("Ignoring UI update on nonexistent key " +:+ key +:+ "."));;
     mret PyNone)
    (λ prop,
       updated ← super_ (T:=t) (State._update key prop_name value);
       (if updated : bool then
          on_self (add_mutation (key, prop_name));;
          (if is_event_prop prop then
             on_self (add_event_mutation (key, prop_name))
           else mret ());;
          super_ (T:=t) (UIPropState.set_prop_value prop)
        else mret ());;
       mret PyNone).

Definition reset_state (key : Key) (prop_name : PropName)
  : Py (t * World) PyValue :=
  prop ← super_ (T:=t) (State.get_prop key prop_name);
  updated ← super_ (T:=t) (State._reset key prop_name);
  (if updated : bool then
     on_self (add_mutation (key, prop_name));;
     (if is_event_prop prop then
        on_self (add_event_mutation (key, prop_name))
      else mret ());;
     super_ (T:=t) (UIPropState.set_prop_value prop)
   else mret ());;
  mret PyNone.

(** Declared as [trigger_event(self, prop, value)]. *)
Definition trigger_event (prop : StoredProp) (value : PyValue)
  : Py (t * World) PyValue :=
  raise (Exception_ "Cannot access state.").

End UIUpdatesFrame.

(** ** class ResetUIEventsFrame(StateAccessFrame) *)

Module ResetUIEventsFrame.

Definition get_state (key : Key) (prop_name : PropName) : Py World PyValue :=
  raise (Exception_ "Cannot access state.").

Definition init_props (key : Key)
    (props_with_values : list (PropName * PropCell)) : Py World PyValue :=
  raise (Exception_ "Cannot access state.").

Definition has_prop (key : Key) (prop_name : PropName) : Py World bool :=
  raise (Exception_ "Cannot access state.").

Definition update_state (key : Key) (prop_name : PropName) (value : PyValue)
  : Py World PyValue :=
  raise (Exception_ "Cannot access state.").

Definition get_props (key : Key) : Py World (list (PropName * PyValue)) :=
  raise (Exception_ "Cannot access state.").

(** Declared as [trigger_event(self, prop, value)]. *)
Definition trigger_event (prop : StoredProp) (value : PyValue)
  : Py World PyValue :=
  raise (Exception_ "Cannot access state.").

Definition reset_state (key : Key) (prop_name : PropName)
  : Py World PyValue :=
  prop ← State.get_prop key prop_name;
  if negb (is_event_prop prop) then
    raise (IllegalResetNonEvent prop_name)
  else
    State._reset key prop_name;;
    mret PyNone.

End ResetUIEventsFrame.

(** ** class RenderFrame(StateAccessFrame) *)

Module RenderFrame.

Definition get_state (key : Key) (prop_name : PropName) : Py World PyValue :=
  raise (Exception_ "Cannot access state.").

Definition update_state (key : Key) (prop_name : PropName) (value : PyValue)
  : Py World PyValue :=
  raise (Exception_ "Cannot access state.").

Definition reset_state (key : Key) (prop_name : PropName)
  : Py World PyValue :=
  raise (Exception_ "Cannot access state.").

(** Declared as [trigger_event(self, prop, value)]. *)
Definition trigger_event (prop : StoredProp) (value : PyValue)
  : Py World PyValue :=
  raise (Exception_ "Cannot access state.").

Definition prop_changed (prop : StoredProp) : Py World bool :=
  UIPropState.prop_changed prop.

(** Not overridden by the class body, so inherited from
    [StateAccessFrame]. *)
Definition init_props := StateAccessFrame.init_props.
Definition has_prop := StateAccessFrame.has_prop.
Definition get_props := StateAccessFrame.get_props.

End RenderFrame.

(** ** Sample data used to exercise the definitions *)

Module Sample.

Definition counter_value : PropCell :=
  {| cell_is_event_prop := false; cell_backend_immutable := false;
     cell_value := PyInt 0; cell_default := PyInt 0 |}.
Definition label_text : PropCell :=
  {| cell_is_event_prop := false; cell_backend_immutable := false;
     cell_value := PyStr "hello"; cell_default := PyStr "" |}.
Definition button_clicked : PropCell :=
  {| cell_is_event_prop := true; cell_backend_immutable := false;
     cell_value := PyBool true; cell_default := PyBool false |}.
Definition window_width : PropCell :=
  {| cell_is_event_prop := false; cell_backend_immutable := true;
     cell_value := PyInt 800; cell_default := PyInt 0 |}.

Definition store : gmap Key (gmap PropName PropCell) :=
  {[ "counter" := {[ "value" := counter_value ]};
     "label" := {[ "text" := label_text ]};
     "button" := {[ "clicked" := button_clicked ]};
     "window" := {[ "width" := window_width ]} ]}.

(** No frame entered, nothing logged, nothing called yet. *)
Definition world : World :=
  {| _current_frame := None; _current_frame_token := ∅; logger := [];
     state := store; ui_prop_state := ∅; task_mutations := [];
     events := []; calls := [] |}.

Definition app_frame : FrameRef :=
  {| frame_id := 1; frame_type := C_AppRunnerFrame |}.
Definition task_frame : FrameRef :=
  {| frame_id := 2; frame_type := C_TaskFrame |}.
Definition app_self : AppRunnerFrame.t :=
  AppRunnerFrame.__init__ (Some {[ ("label", "text") ]}).
Definition ui_self : UIUpdatesFrame.t := UIUpdatesFrame.__init__.

(** The world after [app_frame] was entered. *)
Definition world_in_app : World := (Frame.__enter__ app_frame world).2.
Definition world_in_task : World := (Frame.__enter__ task_frame world).2.

(** A bracketed body that fails. *)
Definition failing_body : Py World PyValue :=
  logger_debug "about to fail";; raise (ValueError "boom").

End Sample.

(** ** Notions used to state the properties *)

(** [derives c d]: [c] is [d] or was declared, directly or through its
    bases, as a refinement of [d]. *)
Inductive derives : FrameClass → FrameClass → Prop :=
| derives_refl c : derives c c
| derives_base c b d : base_class c = Some b → derives b d → derives c d.

(** The bracketed code leaves the token kept by frame [B] alone: it does
    not enter or exit [B] itself. *)
Definition keeps_token_of {T} (B : FrameRef) (body : Py World T) : Prop :=
  ∀ w, _current_frame_token (body w).2 !! frame_id B
       = _current_frame_token w !! frame_id B.

(** The world right after [__enter__] and right after a first [__exit__]. *)
Definition entered (self : FrameRef) (w : World) : World :=
  set_logger
    (logger w ++ [(DEBUG, "----- Enter " +:+ __name__ (frame_type self) +:+ " -----")])
    (set__current_frame_token
       (<[frame_id self := {| old_value := _current_frame w; used := false |}]>
          (_current_frame_token w))
       (set__current_frame (Some self) w)).

Definition exited (self : FrameRef) (token : Token) (w : World) : World :=
  set__current_frame_token
    (<[frame_id self := {| old_value := old_value token; used := true |}]>
       (_current_frame_token w))
    (set__current_frame (old_value token)
       (set_logger
          (logger w ++ [(DEBUG, "----- Exit " +:+ __name__ (frame_type self) +:+ " -----")])
          w)).

(** The world once the lookup [state.get_prop(k, p)] was made. *)
Definition looked_up (k : Key) (p : PropName) (w : World) : World :=
  set_calls (calls w ++ [call_state_get_prop k p]) w.

(** The descriptor the store hands out for the stored property [c]. *)
Definition descriptor (k : Key) (p : PropName) (c : PropCell) : StoredProp :=
  {| pkey := k; pname := p;
     is_event_prop := cell_is_event_prop c;
     backend_immutable := cell_backend_immutable c |}.

(** What [_update] and [_reset] do on a stored property. *)
Definition updated_world (k : Key) (p : PropName) (c : PropCell) (v : PyValue)
    (call : Call) (w : World) : World :=
  if py_eqb (cell_value c) v then set_calls (calls w ++ [call]) w
  else State.put_value k p v (set_calls (calls w ++ [call]) w).

(** What a UIUpdatesFrame has recorded once the store reported [updated]
    for the property described by [prop]. *)
Definition ui_recorded (key : Key) (prop_name : PropName) (prop : StoredProp)
    (updated : bool) (self : UIUpdatesFrame.t) (w2 : World)
  : UIUpdatesFrame.t * World :=
  if updated then
    ({| UIUpdatesFrame.mutations :=
          {[(key, prop_name)]} ∪ UIUpdatesFrame.mutations self;
        UIUpdatesFrame.event_mutations :=
          if is_event_prop prop
          then {[(key, prop_name)]} ∪ UIUpdatesFrame.event_mutations self
          else UIUpdatesFrame.event_mutations self |},
     (UIPropState.set_prop_value prop w2).2)
  else (self, w2).

(** ** Sequences of calls on one frame *)

(** [with f1: with f2: ... body], outermost frame first. *)
Definition nested_with {T} (frames : list FrameRef) (body : Py World T)
  : Py World T :=
  foldr (λ frame inner, with_ frame inner) body frames.

(** The world after entering the frames one after the other. *)
Definition entered_all (frames : list FrameRef) (w : World) : World :=
  foldl (λ w frame, entered frame w) w frames.

(** The bracketed code leaves every frame's token alone. *)
Definition keeps_tokens {T} (body : Py World T) : Prop :=
  ∀ w, _current_frame_token (body w).2 = _current_frame_token w.

(** A state-access call made on an AppRunnerFrame. *)
Inductive AppCall :=
| app_get_state (key : Key) (prop_name : PropName)
| app_update_state (key : Key) (prop_name : PropName) (value : PyValue)
| app_reset_state (key : Key) (prop_name : PropName).

Definition app_call (c : AppCall) : Py (AppRunnerFrame.t * World) PyValue :=
  match c with
  | app_get_state key prop_name => AppRunnerFrame.get_state key prop_name
  | app_update_state key prop_name value =>
      AppRunnerFrame.update_state key prop_name value
  | app_reset_state key prop_name => AppRunnerFrame.reset_state key prop_name
  end.

(** The calls made one after the other; the first exception ends the
    sequence and propagates. *)
Fixpoint app_calls (cs : list AppCall) : Py (AppRunnerFrame.t * World) () :=
  match cs with
  | [] => mret ()
  | c :: cs => app_call c;; app_calls cs
  end.

(** A call made on a UIUpdatesFrame. *)
Inductive UICall :=
| ui_update_state (key : Key) (prop_name : PropName) (value : PyValue)
| ui_reset_state (key : Key) (prop_name : PropName)
| ui_trigger_event (prop : StoredProp) (value : PyValue).

Definition ui_call (c : UICall) : Py (UIUpdatesFrame.t * World) PyValue :=
  match c with
  | ui_update_state key prop_name value =>
      UIUpdatesFrame.update_state key prop_name value
  | ui_reset_state key prop_name => UIUpdatesFrame.reset_state key prop_name
  | ui_trigger_event prop value => UIUpdatesFrame.trigger_event prop value
  end.

(** A sequence of inbound updates in which a failing call is skipped and
    the next one is applied (the caller catches the exception); what the
    frame has recorded is kept either way. *)
Fixpoint ui_calls (cs : list UICall) (s : UIUpdatesFrame.t * World)
  : UIUpdatesFrame.t * World :=
  match cs with
  | [] => s
  | c :: cs => ui_calls cs (ui_call c s).2
  end.

(** A call made on a ResetUIEventsFrame, whatever the method. *)
Inductive ResetUIEventsCall :=
| rue_get_state (key : Key) (prop_name : PropName)
| rue_init_props (key : Key) (props_with_values : list (PropName * PropCell))
| rue_has_prop (key : Key) (prop_name : PropName)
| rue_update_state (key : Key) (prop_name : PropName) (value : PyValue)
| rue_get_props (key : Key)
| rue_trigger_event (prop : StoredProp) (value : PyValue)
| rue_reset_state (key : Key) (prop_name : PropName).

(** The world a call leaves behind and whether it raised. *)
Definition rue_call (c : ResetUIEventsCall) (w : World) : option Exn * World :=
  let outcome {A} (r : Outcome A * World) : option Exn * World :=
    (match r.1 with Returns _ => None | Raises e => Some e end, r.2) in
  match c with
  | rue_get_state key prop_name =>
      outcome (ResetUIEventsFrame.get_state key prop_name w)
  | rue_init_props key props_with_values =>
      outcome (ResetUIEventsFrame.init_props key props_with_values w)
  | rue_has_prop key prop_name =>
      outcome (ResetUIEventsFrame.has_prop key prop_name w)
  | rue_update_state key prop_name value =>
      outcome (ResetUIEventsFrame.update_state key prop_name value w)
  | rue_get_props key => outcome (ResetUIEventsFrame.get_props key w)
  | rue_trigger_event prop value =>
      outcome (ResetUIEventsFrame.trigger_event prop value w)
  | rue_reset_state key prop_name =>
      outcome (ResetUIEventsFrame.reset_state key prop_name w)
  end.

Fixpoint rue_calls (cs : list ResetUIEventsCall) (w : World) : World :=
  match cs with
  | [] => w
  | c :: cs => rue_calls cs (rue_call c w).2
  end.

(** The stored property [c] holding the value [v]. *)
Definition with_value (c : PropCell) (v : PyValue) : PropCell :=
  {| cell_is_event_prop := cell_is_event_prop c;
     cell_backend_immutable := cell_backend_immutable c;
     cell_value := v;
     cell_default := cell_default c |}.

(** * Properties *)

(** ** Sequencing *)

Lemma bind_returns {S A B} (m : Py S A) (k : A → Py S B) s a s' :
  m s = (Returns a, s') → (m ≫= k) s = k a s'.
Proof. intros H. unfold mbind, Py_bind, bind. by rewrite H. Qed.

Lemma bind_raises {S A B} (m : Py S A) (k : A → Py S B) s e s' :
  m s = (Raises e, s') → (m ≫= k) s = (Raises e, s').
Proof. intros H. unfold mbind, Py_bind, bind. by rewrite H. Qed.

Lemma super_returns {T A} (m : Py World A) (self : T) w a w' :
  m w = (Returns a, w') → super_ m (self, w) = (Returns a, (self, w')).
Proof. intros H. unfold super_. simpl. by rewrite H. Qed.

Lemma super_raises {T A} (m : Py World A) (self : T) w e w' :
  m w = (Raises e, w') → super_ m (self, w) = (Raises e, (self, w')).
Proof. intros H. unfold super_. simpl. by rewrite H. Qed.

(** ** The class hierarchy *)

Lemma issubclass_derives c d : issubclass c d = true ↔ derives c d.
Proof.
  split.
  - destruct c, d; intros H; try (by inversion H);
      repeat (first [ apply derives_refl
                    | eapply derives_base; [reflexivity |] ]).
  - induction 1 as [c | c b d Hb _ IH].
    + by destruct c.
    + destruct c; inversion Hb; subst b; destruct d; try done.
  Qed.

Lemma isinstance_derives frame cls :
  isinstance frame cls = true ↔ derives (frame_type frame) cls.
Proof. apply issubclass_derives. Qed.

(** ** Dirtiness of dependencies *)

(** C1: for every AppRunnerFrame and every set of dependencies,
    [filter_dirty_deps(deps)] is the intersection of [deps] with the union
    of the frame's [mutations] and [prev_frame_mutations], and
    [deps_are_dirty(deps)] is true exactly when that intersection is not
    empty. *)
Theorem filter_dirty_deps_is_intersection
    (f : AppRunnerFrame.t) (deps : gset PropId) :
  AppRunnerFrame.filter_dirty_deps f deps
    = deps ∩ (AppRunnerFrame.mutations f ∪ AppRunnerFrame.prev_frame_mutations f)
  ∧ (AppRunnerFrame.deps_are_dirty f deps = true
     ↔ deps ∩ (AppRunnerFrame.mutations f
                ∪ AppRunnerFrame.prev_frame_mutations f) ≠ ∅).
Proof.
  assert (Heq : AppRunnerFrame.filter_dirty_deps f deps
                = deps ∩ (AppRunnerFrame.mutations f
                           ∪ AppRunnerFrame.prev_frame_mutations f)).
  { unfold AppRunnerFrame.filter_dirty_deps. apply set_eq. intros x.
    rewrite !elem_of_intersection, elem_of_union. tauto. }
  split; [exact Heq |].
  unfold AppRunnerFrame.deps_are_dirty. rewrite Heq, bool_decide_eq_true.
  rewrite <- (leibniz_equiv_iff (_ ∩ _) ∅), <- size_non_empty_iff. lia.
Qed.

(** The scenario of the dirtiness law: a frame created with
    [prev_frame_mutations = {(label, text)}] reads (counter, value) and
    writes a new value to (label, text). *)
Example dirtiness_law_scenario :
  let f := (AppRunnerFrame.get_state "counter" "value"
              ≫= λ _, AppRunnerFrame.update_state "label" "text" (PyStr "bye"))
             (Sample.app_self, Sample.world) in
  f.1 = Returns PyNone
  ∧ AppRunnerFrame.deps f.2.1 = {[("counter", "value")]}
  ∧ AppRunnerFrame.mutations f.2.1 = {[("label", "text")]}
  ∧ AppRunnerFrame.deps_are_dirty f.2.1 {[("label", "text")]} = true
  ∧ AppRunnerFrame.deps_are_dirty f.2.1 {[("button", "clicked")]} = false.
Proof. cbn zeta. repeat split; by vm_compute. Qed.

(** ** The current frame *)

(** C3: the class-level lookup [current] of a requested class fails with
    NoActiveFrame when the context-local slot holds no frame, fails with
    WrongFrame when the active frame is not an instance of the requested
    class (the class itself or one of its refinements), and otherwise returns
    the active frame, leaving everything as it was. *)
Theorem current_lookup (cls : FrameClass) (w : World) :
  (_current_frame w = None →
   Frame.current cls w = (Raises NoActiveFrame, w))
  ∧ (∀ frame, _current_frame w = Some frame →
       ¬ derives (frame_type frame) cls →
       Frame.current cls w
         = (Raises (WrongFrame cls (frame_type frame)), w))
  ∧ (∀ frame, _current_frame w = Some frame →
       derives (frame_type frame) cls →
       Frame.current cls w = (Returns frame, w)).
Proof.
  unfold Frame.current, ContextVar.get.
  split; [| split].
  - intros Hnone. erewrite bind_returns; [| unfold gets; reflexivity].
    by rewrite Hnone.
  - intros frame Hsome Hnot.
    erewrite bind_returns; [| unfold gets; reflexivity].
    rewrite Hsome. rewrite <- isinstance_derives in Hnot.
    by destruct (isinstance frame cls).
  - intros frame Hsome Hder.
    erewrite bind_returns; [| unfold gets; reflexivity].
    rewrite Hsome. apply isinstance_derives in Hder. by rewrite Hder.
Qed.

Lemma current_lookup_witness :
  Frame.current C_TaskFrame Sample.world = (Raises NoActiveFrame, Sample.world)
  ∧ Frame.current C_AppRunnerFrame Sample.world_in_task
    = (Raises (WrongFrame C_AppRunnerFrame C_TaskFrame), Sample.world_in_task)
  ∧ Frame.current C_StateAccessFrame Sample.world_in_task
    = (Returns Sample.task_frame, Sample.world_in_task).
Proof.
  split; [| split].
  - apply (proj1 (current_lookup C_TaskFrame Sample.world)). reflexivity.
  - apply (proj1 (proj2 (current_lookup C_AppRunnerFrame Sample.world_in_task))
             Sample.task_frame).
    + reflexivity.
    + intros H. apply issubclass_derives in H. discriminate H.
  - apply (proj2 (proj2 (current_lookup C_StateAccessFrame
                           Sample.world_in_task)) Sample.task_frame).
    + reflexivity.
    + apply issubclass_derives. reflexivity.
Defined.

Lemma enter_eq self w : Frame.__enter__ self w = (Returns self, entered self w).
Proof. reflexivity. Qed.

Lemma exit_eq self token w :
  _current_frame_token w !! frame_id self = Some token →
  used token = false →
  Frame.__exit__ self w = (Returns (), exited self token w).
Proof.
  intros Htok Hused. unfold Frame.__exit__.
  erewrite bind_returns; [| reflexivity].
  erewrite bind_returns; [| unfold gets; cbn; rewrite Htok; reflexivity].
  unfold ContextVar.reset. rewrite Hused. reflexivity.
Qed.

Lemma current_eq cls w :
  Frame.current cls w
  = match _current_frame w with
    | None => (Raises NoActiveFrame, w)
    | Some frame =>
        if isinstance frame cls then (Returns frame, w)
        else (Raises (WrongFrame cls (frame_type frame)), w)
    end.
Proof.
  unfold Frame.current, ContextVar.get.
  erewrite bind_returns; [| unfold gets; reflexivity].
  destruct (_current_frame w) as [frame |]; [| reflexivity].
  by destruct (isinstance frame cls).
Qed.

Lemma issubclass_refl c : issubclass c c = true.
Proof. by destruct c. Qed.

Lemma current_with_frame cls frame w :
  _current_frame w = Some frame →
  Frame.current cls w
  = if isinstance frame cls then (Returns frame, w)
    else (Raises (WrongFrame cls (frame_type frame)), w).
Proof. intros H. by rewrite current_eq, H. Qed.

Lemma with_eq {T} (self : FrameRef) (body : Py World T) (w : World) :
  keeps_token_of self body →
  with_ self body w
  = ((body (entered self w)).1,
     exited self {| old_value := _current_frame w; used := false |}
       (body (entered self w)).2).
Proof.
  intros Hkeep. unfold with_.
  erewrite bind_returns; [| apply enter_eq].
  unfold try_finally.
  destruct (body (entered self w)) as [r w2] eqn:Hbody.
  erewrite exit_eq; [reflexivity | | reflexivity].
  specialize (Hkeep (entered self w)). rewrite Hbody in Hkeep.
  cbn in Hkeep. rewrite Hkeep. apply lookup_insert_eq.
Qed.

Lemma exit_used self token w :
  _current_frame_token w !! frame_id self = Some token →
  used token = true →
  Frame.__exit__ self w
  = (Raises (RuntimeError "<Token> has already been used once"),
     set_logger
       (logger w ++ [(DEBUG, "----- Exit " +:+ __name__ (frame_type self) +:+ " -----")])
       w).
Proof.
  intros Htok Hused. unfold Frame.__exit__.
  erewrite bind_returns; [| reflexivity].
  erewrite bind_returns; [| unfold gets; cbn; rewrite Htok; reflexivity].
  unfold ContextVar.reset. rewrite Hused. reflexivity.
Qed.

(** C2: enter frame A, then frame B, where B is not an instance of A's
    class (as when the two classes are unrelated variants).  Inside B,
    [current] of B's class returns B and [current] of A's class fails with
    WrongFrame.  Leaving B's bracket, whether the bracketed code returned or
    raised (its outcome is the outcome of the bracket), runs [__exit__] once:
    A is the current frame again and [current] of A's class returns it, B's
    token is used up, and a second [__exit__] of B fails without touching the
    current frame. *)
Theorem exclusive_current_frame {T} (A B : FrameRef) (body : Py World T)
    (w : World) :
  issubclass (frame_type B) (frame_type A) = false →
  keeps_token_of B body →
  let inside_A := (Frame.__enter__ A w).2 in
  let inside_B := (Frame.__enter__ B inside_A).2 in
  let after_body := (body inside_B).2 in
  let after_B := (with_ B body inside_A).2 in
  Frame.current (frame_type B) inside_B = (Returns B, inside_B)
  ∧ Frame.current (frame_type A) inside_B
    = (Raises (WrongFrame (frame_type A) (frame_type B)), inside_B)
  ∧ (with_ B body inside_A).1 = (body inside_B).1
  ∧ _current_frame after_B = Some A
  ∧ Frame.current (frame_type A) after_B = (Returns A, after_B)
  ∧ _current_frame_token after_B !! frame_id B
    = Some {| old_value := Some A; used := true |}
  ∧ logger after_B
    = logger after_body
        ++ [(DEBUG, "----- Exit " +:+ __name__ (frame_type B) +:+ " -----")]
  ∧ (Frame.__exit__ B after_B).1
    = Raises (RuntimeError "<Token> has already been used once")
  ∧ _current_frame (Frame.__exit__ B after_B).2 = Some A.
Proof.
  intros HBA Hkeep. cbn zeta.
  rewrite (with_eq B body _ Hkeep), !enter_eq. cbn [fst snd].
  repeat split.
  - rewrite (current_with_frame _ B) by reflexivity.
    unfold isinstance. by rewrite issubclass_refl.
  - rewrite (current_with_frame _ B) by reflexivity.
    unfold isinstance. by rewrite HBA.
  - rewrite (current_with_frame _ A) by reflexivity.
    unfold isinstance. by rewrite issubclass_refl.
  - cbn. apply lookup_insert_eq.
  - erewrite exit_used; [reflexivity | cbn; apply lookup_insert_eq | reflexivity].
  - erewrite exit_used; [reflexivity | cbn; apply lookup_insert_eq | reflexivity].
Qed.

Lemma exclusive_current_frame_witness :
  issubclass C_TaskFrame C_AppRunnerFrame = false
  ∧ keeps_token_of Sample.task_frame Sample.failing_body
  ∧ (with_ Sample.task_frame Sample.failing_body Sample.world_in_app).1
    = Raises (ValueError "boom")
  ∧ Frame.current C_AppRunnerFrame
      (with_ Sample.task_frame Sample.failing_body Sample.world_in_app).2
    = (Returns Sample.app_frame,
       (with_ Sample.task_frame Sample.failing_body Sample.world_in_app).2).
Proof.
  assert (Hkeep : keeps_token_of Sample.task_frame Sample.failing_body)
    by (intros w; reflexivity).
  pose proof (exclusive_current_frame Sample.app_frame Sample.task_frame
                Sample.failing_body Sample.world eq_refl Hkeep) as H.
  cbn zeta in H.
  split; [reflexivity |]. split; [exact Hkeep |].
  split; [exact (proj1 (proj2 (proj2 H))) |].
  exact (proj1 (proj2 (proj2 (proj2 (proj2 H))))).
Defined.

(** ** The state store as the frames see it *)

Lemma py_eqb_refl v : py_eqb v v = true.
Proof. destruct v; simpl; by rewrite ?bool_decide_eq_true. Qed.

Lemma lookup_cell_cases k p w :
  (∃ c, State.cell k p w = Some c ∧ State.lookup_cell k p w = (Returns c, w))
  ∨ (State.cell k p w = None
     ∧ ∃ missing, State.lookup_cell k p w = (Raises (KeyError missing), w)).
Proof.
  unfold State.cell, State.lookup_cell.
  erewrite bind_returns; [| unfold gets; reflexivity].
  destruct (state w !! k) as [props |]; simpl.
  - destruct (props !! p) as [c |]; [left | right]; eauto.
  - right. eauto.
Qed.

Lemma lookup_cell_found k p c w :
  State.cell k p w = Some c → State.lookup_cell k p w = (Returns c, w).
Proof.
  intros H. destruct (lookup_cell_cases k p w) as [(c' & Hc & ->) | (Hc & _)];
    congruence.
Qed.

Lemma get_prop_found k p c w :
  State.cell k p w = Some c →
  State.get_prop k p w = (Returns (descriptor k p c), looked_up k p w).
Proof.
  intros H. unfold State.get_prop.
  erewrite bind_returns; [| reflexivity].
  erewrite bind_returns; [reflexivity |].
  by apply lookup_cell_found.
Qed.

Lemma get_prop_missing_key k p w :
  state w !! k = None →
  State.get_prop k p w = (Raises (UnknownProperty k), looked_up k p w).
Proof.
  intros H. unfold State.get_prop.
  erewrite bind_returns; [| reflexivity].
  erewrite bind_raises; [reflexivity |].
  unfold State.lookup_cell.
  erewrite bind_returns; [| unfold gets; reflexivity].
  cbn. by rewrite H.
Qed.

(** Every outcome of the lookup: a descriptor of the stored property, or
    [KeyError]; the store itself is as before. *)
Lemma get_prop_inv k p w r w1 :
  State.get_prop k p w = (r, w1) →
  w1 = looked_up k p w
  ∧ match r with
    | Returns prop => ∃ c, State.cell k p w = Some c ∧ prop = descriptor k p c
    | Raises e => State.cell k p w = None ∧ ∃ missing, e = KeyError missing
    end.
Proof.
  unfold State.get_prop.
  erewrite bind_returns; [| reflexivity].
  destruct (lookup_cell_cases k p (called (call_state_get_prop k p) w).2)
    as [(c & Hc & Hl) | (Hc & missing & Hl)].
  - erewrite bind_returns; [| exact Hl]. intros [= <- <-]. eauto.
  - erewrite bind_raises; [| exact Hl]. intros [= <- <-]. eauto.
Qed.

Lemma update_found k p v c w :
  State.cell k p w = Some c →
  State._update k p v w
  = (Returns (negb (py_eqb (cell_value c) v)),
     updated_world k p c v (call_state__update k p v) w).
Proof.
  intros H. unfold State._update, updated_world.
  erewrite bind_returns; [| reflexivity].
  erewrite bind_returns; [| by apply lookup_cell_found].
  by destruct (py_eqb (cell_value c) v).
Qed.

Lemma reset_found k p c w :
  State.cell k p w = Some c →
  State._reset k p w
  = (Returns (negb (py_eqb (cell_value c) (cell_default c))),
     updated_world k p c (cell_default c) (call_state__reset k p) w).
Proof.
  intros H. unfold State._reset, updated_world.
  erewrite bind_returns; [| reflexivity].
  erewrite bind_returns; [| by apply lookup_cell_found].
  by destruct (py_eqb (cell_value c) (cell_default c)).
Qed.

(** The store's writes touch the store and the call log only. *)
Lemma updated_world_frame k p c v call w :
  let w' := updated_world k p c v call w in
  calls w' = calls w ++ [call]
  ∧ task_mutations w' = task_mutations w
  ∧ ui_prop_state w' = ui_prop_state w
  ∧ events w' = events w
  ∧ logger w' = logger w
  ∧ _current_frame w' = _current_frame w.
Proof.
  unfold updated_world, State.put_value. cbn zeta.
  destruct (py_eqb (cell_value c) v); [done |].
  cbn. destruct (state w !! k) as [props |]; [| done].
  by destruct (props !! p).
Qed.

Lemma updated_world_same k p c v call w :
  py_eqb (cell_value c) v = true →
  updated_world k p c v call w = set_calls (calls w ++ [call]) w.
Proof. intros H. unfold updated_world. by rewrite H. Qed.

Lemma updated_world_cell k p c v call w :
  State.cell k p w = Some c →
  py_eqb (cell_value c) v = false →
  cell_value <$> State.cell k p (updated_world k p c v call w) = Some v.
Proof.
  intros Hc Hne. unfold updated_world, State.put_value. rewrite Hne.
  unfold State.cell in *. cbn.
  destruct (state w !! k) as [props |] eqn:Hk; [| done]. cbn in Hc.
  rewrite Hc. cbn. rewrite lookup_insert_eq. cbn.
  by rewrite lookup_insert_eq.
Qed.

(** ** Legality of writes and resets *)

(** C4: when the descriptor of the property has [is_event_prop] or
    [backend_immutable] set, [update_state] of a StateAccessFrame (also when
    reached through [super()] from an AppRunnerFrame or a TaskFrame) fails
    with IllegalMutation; the world is then the one left by the lookup, so
    the write never reached the store, and the frame's own records are
    untouched.  [reset_state] fails with IllegalReset when [is_event_prop]
    is set.  In a ResetUIEventsFrame, [reset_state] returns normally, having
    delegated to the store, when [is_event_prop] is set, and fails with
    IllegalReset when it is not. *)
Theorem illegal_writes_rejected
    (key : Key) (prop_name : PropName) (prop : StoredProp) (w w1 : World) :
  State.get_prop key prop_name w = (Returns prop, w1) →
  w1 = looked_up key prop_name w
  ∧ (is_event_prop prop || backend_immutable prop = true →
     ∀ value,
       StateAccessFrame.update_state key prop_name value w
         = (Raises (IllegalMutation prop_name), w1)
       ∧ (∀ self, AppRunnerFrame.update_state key prop_name value (self, w)
                   = (Raises (IllegalMutation prop_name), (self, w1)))
       ∧ TaskFrame.update_state key prop_name value w
         = (Raises (IllegalMutation prop_name), w1))
  ∧ (is_event_prop prop = true →
     StateAccessFrame.reset_state key prop_name w
       = (Raises (IllegalReset prop_name), w1)
     ∧ (∀ self, AppRunnerFrame.reset_state key prop_name (self, w)
                 = (Raises (IllegalReset prop_name), (self, w1)))
     ∧ TaskFrame.reset_state key prop_name w
       = (Raises (IllegalReset prop_name), w1)
     ∧ ∃ updated w2,
         State._reset key prop_name w1 = (Returns updated, w2)
         ∧ ResetUIEventsFrame.reset_state key prop_name w
           = (Returns PyNone, w2))
  ∧ (is_event_prop prop = false →
     ResetUIEventsFrame.reset_state key prop_name w
       = (Raises (IllegalResetNonEvent prop_name), w1)).
Proof.
  intros Hget.
  destruct (get_prop_inv _ _ _ _ _ Hget) as (Hw1 & c & Hcell & Hprop).
  split; [exact Hw1 |].
  assert (Hupd : is_event_prop prop || backend_immutable prop = true →
                 ∀ value, StateAccessFrame.update_state key prop_name value w
                          = (Raises (IllegalMutation prop_name), w1)).
  { intros Hflags value. unfold StateAccessFrame.update_state.
    erewrite bind_returns; [| exact Hget]. by rewrite Hflags. }
  assert (Hres : is_event_prop prop = true →
                 StateAccessFrame.reset_state key prop_name w
                 = (Raises (IllegalReset prop_name), w1)).
  { intros Hflag. unfold StateAccessFrame.reset_state.
    erewrite bind_returns; [| exact Hget]. by rewrite Hflag. }
  split; [| split].
  - intros Hflags value. split; [| split].
    + by apply Hupd.
    + intros self. unfold AppRunnerFrame.update_state.
      erewrite bind_raises; [reflexivity |].
      apply super_raises. by apply Hupd.
    + unfold TaskFrame.update_state.
      erewrite bind_raises; [reflexivity |]. by apply Hupd.
  - intros Hflag. split; [| split; [| split]].
    + by apply Hres.
    + intros self. unfold AppRunnerFrame.reset_state.
      erewrite bind_raises; [reflexivity |].
      apply super_raises. by apply Hres.
    + unfold TaskFrame.reset_state.
      erewrite bind_raises; [reflexivity |]. by apply Hres.
    + assert (Hcell1 : State.cell key prop_name w1 = Some c)
        by (by rewrite Hw1).
      eexists _, _. split; [by apply reset_found |].
      unfold ResetUIEventsFrame.reset_state.
      erewrite bind_returns; [| exact Hget]. rewrite Hflag. cbn [negb].
      erewrite bind_returns; [reflexivity | by apply reset_found].
  - intros Hflag. unfold ResetUIEventsFrame.reset_state.
    erewrite bind_returns; [| exact Hget]. by rewrite Hflag.
Qed.

Lemma illegal_writes_rejected_witness :
  StateAccessFrame.update_state "button" "clicked" (PyBool false) Sample.world
    = (Raises (IllegalMutation "clicked"),
       looked_up "button" "clicked" Sample.world)
  ∧ StateAccessFrame.update_state "window" "width" (PyInt 1024) Sample.world
    = (Raises (IllegalMutation "width"),
       looked_up "window" "width" Sample.world)
  ∧ StateAccessFrame.reset_state "button" "clicked" Sample.world
    = (Raises (IllegalReset "clicked"),
       looked_up "button" "clicked" Sample.world)
  ∧ (ResetUIEventsFrame.reset_state "button" "clicked" Sample.world).1
    = Returns PyNone
  ∧ ResetUIEventsFrame.reset_state "counter" "value" Sample.world
    = (Raises (IllegalResetNonEvent "value"),
       looked_up "counter" "value" Sample.world).
Proof.
  pose proof (illegal_writes_rejected "button" "clicked"
                (descriptor "button" "clicked" Sample.button_clicked)
                Sample.world _ eq_refl) as (_ & Hbu & Hbr & _).
  pose proof (illegal_writes_rejected "window" "width"
                (descriptor "window" "width" Sample.window_width)
                Sample.world _ eq_refl) as (_ & Hwu & _ & _).
  pose proof (illegal_writes_rejected "counter" "value"
                (descriptor "counter" "value" Sample.counter_value)
                Sample.world _ eq_refl) as (_ & _ & _ & Hcr).
  split; [exact (proj1 (Hbu eq_refl (PyBool false))) |].
  split; [exact (proj1 (Hwu eq_refl (PyInt 1024))) |].
  split; [exact (proj1 (Hbr eq_refl)) |].
  split; [| exact (Hcr eq_refl)].
  destruct (Hbr eq_refl) as (_ & _ & _ & updated & w2 & _ & ->). reflexivity.
Defined.

(** ** Stale keys in UIUpdatesFrame *)

(** C5: on a key that the state store no longer has, [update_state] of a
    UIUpdatesFrame returns normally: the lookup is the only call that reaches
    the store, a warning is logged, and [mutations] and [event_mutations] are
    as before; [reset_state] on such a key fails with UnknownProperty. *)
Theorem stale_key_tolerated_by_update_only
    (key : Key) (prop_name : PropName) (value : PyValue)
    (self : UIUpdatesFrame.t) (w : World) :
  state w !! key = None →
  let w' := (UIUpdatesFrame.update_state key prop_name value (self, w)).2.2 in
  UIUpdatesFrame.update_state key prop_name value (self, w)
    = (Returns PyNone, (self, w'))
  ∧ calls w' = calls w ++ [call_state_get_prop key prop_name]
  ∧ state w' = state w
  ∧ ui_prop_state w' = ui_prop_state w
  ∧ logger w'
    = logger w
        ++ [(WARNING, "Ignoring UI update on nonexistent key " +:+ key +:+ ".")]
  ∧ UIUpdatesFrame.reset_state key prop_name (self, w)
    = (Raises (UnknownProperty key), (self, looked_up key prop_name w)).
Proof.
  intros Hkey. cbn zeta.
  assert (Hupd : UIUpdatesFrame.update_state key prop_name value (self, w)
                 = (Returns PyNone,
                    (self,
                     set_logger
                       (logger w
                          ++ [(WARNING,
                               "Ignoring UI update on nonexistent key "
                                 +:+ key +:+ ".")])
                       (looked_up key prop_name w)))).
  { unfold UIUpdatesFrame.update_state, try_except_KeyError.
    rewrite (super_raises _ _ _ _ _ (get_prop_missing_key key prop_name w Hkey)).
    reflexivity. }
  rewrite Hupd. cbn [fst snd].
  repeat split.
  unfold UIUpdatesFrame.reset_state.
  erewrite bind_raises; [reflexivity |].
  apply super_raises. by apply get_prop_missing_key.
Qed.

Lemma stale_key_tolerated_by_update_only_witness :
  state Sample.world !! "gone" = None
  ∧ (UIUpdatesFrame.update_state "gone" "value" (PyInt 1)
       (Sample.ui_self, Sample.world)).1 = Returns PyNone
  ∧ (UIUpdatesFrame.update_state "gone" "value" (PyInt 1)
       (Sample.ui_self, Sample.world)).2.1 = Sample.ui_self
  ∧ (UIUpdatesFrame.reset_state "gone" "value"
       (Sample.ui_self, Sample.world)).1 = Raises (UnknownProperty "gone").
Proof.
  assert (Hkey : state Sample.world !! "gone" = None) by reflexivity.
  pose proof (stale_key_tolerated_by_update_only "gone" "value" (PyInt 1)
                Sample.ui_self Sample.world Hkey) as H.
  cbn zeta in H. destruct H as (Hupd & _ & _ & _ & _ & Hres).
  split; [exact Hkey |].
  split; [by rewrite Hupd |].
  split; [by rewrite Hupd |].
  by rewrite Hres.
Defined.

(** ** RenderFrame *)

(** C6, as stated, fails: RenderFrame overrides [get_state],
    [update_state], [reset_state] and [trigger_event] only, so [has_prop],
    [get_props] and [init_props] are the inherited ones and reach the state
    store instead of failing with AccessDenied. *)
Lemma render_frame_inherits_counterexample :
  RenderFrame.has_prop "counter" "value" Sample.world
    = (Returns true,
       set_calls [call_state_has_prop "counter" "value"] Sample.world)
  ∧ (RenderFrame.has_prop "counter" "value" Sample.world).1
    ≠ Raises AccessDenied
  ∧ (RenderFrame.get_props "counter" Sample.world).1
    = Returns [("value", PyInt 0)]
  ∧ (RenderFrame.init_props "fresh" [("shown", Sample.counter_value)]
       Sample.world).1
    = Returns PyNone.
Proof. split; [reflexivity |]. split; [discriminate |]. split; reflexivity. Qed.

(** C6, amended: in a RenderFrame, [get_state], [update_state],
    [reset_state] and [trigger_event] fail with AccessDenied and leave the
    world as it was; [init_props], [has_prop] and [get_props] are inherited
    from StateAccessFrame, reach the state store and never fail with
    AccessDenied; [prop_changed] returns the answer of the outgoing-diff
    tracker, which is the one call it makes. *)
Theorem render_frame_access
    (key : Key) (prop_name : PropName) (value : PyValue) (prop : StoredProp)
    (props_with_values : list (PropName * PropCell)) (w : World) :
  RenderFrame.get_state key prop_name w = (Raises AccessDenied, w)
  ∧ RenderFrame.update_state key prop_name value w = (Raises AccessDenied, w)
  ∧ RenderFrame.reset_state key prop_name w = (Raises AccessDenied, w)
  ∧ RenderFrame.trigger_event prop value w = (Raises AccessDenied, w)
  ∧ RenderFrame.init_props key props_with_values w
    = StateAccessFrame.init_props key props_with_values w
  ∧ (RenderFrame.init_props key props_with_values w).1 = Returns PyNone
  ∧ calls (RenderFrame.init_props key props_with_values w).2
    = calls w ++ [call_state_init_props key props_with_values]
  ∧ RenderFrame.has_prop key prop_name w
    = (Returns (bool_decide (is_Some (State.cell key prop_name w))),
       set_calls (calls w ++ [call_state_has_prop key prop_name]) w)
  ∧ RenderFrame.get_props key w = StateAccessFrame.get_props key w
  ∧ (RenderFrame.get_props key w).1 ≠ Raises AccessDenied
  ∧ calls (RenderFrame.get_props key w).2
    = calls w ++ [call_state_get_props key]
  ∧ RenderFrame.prop_changed prop w = UIPropState.prop_changed prop w
  ∧ RenderFrame.prop_changed prop w
    = (Returns (bool_decide (ui_prop_state w !! prop_id prop
                             ≠ UIPropState.value_of prop w)),
       set_calls (calls w ++ [call_ui_prop_state_prop_changed prop]) w).
Proof.
  repeat split; try reflexivity.
  - unfold RenderFrame.get_props, StateAccessFrame.get_props, State.get_props.
    erewrite bind_returns; [| reflexivity].
    erewrite bind_returns; [| unfold gets; reflexivity].
    cbn. by destruct (state w !! key).
  - unfold RenderFrame.get_props, StateAccessFrame.get_props, State.get_props.
    erewrite bind_returns; [| reflexivity].
    erewrite bind_returns; [| unfold gets; reflexivity].
    cbn. by destruct (state w !! key).
Qed.

(** ** What [update_state] returns *)

(** C7, as stated, fails: the overrides in AppRunnerFrame and TaskFrame end
    without a [return], so they return [None] also when the write changed
    the property; only StateAccessFrame's own method returns the store's
    report. *)
Lemma update_state_returns_none_counterexample :
  (StateAccessFrame.update_state "counter" "value" (PyInt 1) Sample.world).1
    = Returns (PyBool true)
  ∧ (AppRunnerFrame.update_state "counter" "value" (PyInt 1)
       (Sample.app_self, Sample.world)).1 = Returns PyNone
  ∧ (AppRunnerFrame.update_state "counter" "value" (PyInt 1)
       (Sample.app_self, Sample.world)).1 ≠ Returns (PyBool true)
  ∧ (TaskFrame.update_state "counter" "value" (PyInt 1) Sample.world).1
    ≠ Returns (PyBool true).
Proof. split; [reflexivity |]. split; [reflexivity |]. split; discriminate. Qed.

(** C7, amended: on a stored property with neither flag set,
    StateAccessFrame's [update_state] returns the store's report of whether
    the value differed from the current one.  AppRunnerFrame's and
    TaskFrame's [update_state] return [None]; they use that report to add
    the pair to [mutations], respectively to enqueue it, exactly when a
    change occurred.  Writing the value the property already holds is
    reported as no change: the store keeps its contents, nothing is added to
    [mutations] (of an AppRunnerFrame or a UIUpdatesFrame), nothing is
    enqueued and nothing is pushed to the outgoing-diff tracker. *)
Theorem update_state_reports_change
    (key : Key) (prop_name : PropName) (value : PyValue) (c : PropCell)
    (w : World) :
  State.cell key prop_name w = Some c →
  cell_is_event_prop c = false →
  cell_backend_immutable c = false →
  let changed := negb (py_eqb (cell_value c) value) in
  let w2 := (State._update key prop_name value (looked_up key prop_name w)).2 in
  State._update key prop_name value (looked_up key prop_name w)
    = (Returns changed, w2)
  ∧ StateAccessFrame.update_state key prop_name value w
    = (Returns (PyBool changed), w2)
  ∧ (∀ self,
       AppRunnerFrame.update_state key prop_name value (self, w)
       = (Returns PyNone,
          (if changed then AppRunnerFrame.add_mutation (key, prop_name) self
           else self, w2)))
  ∧ TaskFrame.update_state key prop_name value w
    = (Returns PyNone,
       if changed
       then (AppRunner.enqueue_task_mutations [(key, prop_name)] w2).2
       else w2)
  ∧ (cell_value c = value →
     changed = false
     ∧ state w2 = state w
     ∧ calls w2 = calls w ++ [call_state_get_prop key prop_name;
                              call_state__update key prop_name value]
     ∧ ui_prop_state w2 = ui_prop_state w
     ∧ task_mutations w2 = task_mutations w
     ∧ ∀ self, UIUpdatesFrame.update_state key prop_name value (self, w)
               = (Returns PyNone, (self, w2))).
Proof.
  intros Hcell Hev Him. cbn zeta.
  pose proof (get_prop_found _ _ _ _ Hcell) as Hget.
  assert (Hcell1 : State.cell key prop_name (looked_up key prop_name w) = Some c)
    by exact Hcell.
  pose proof (update_found _ _ value _ _ Hcell1) as Hupd.
  rewrite Hupd. cbn [fst snd].
  set (w2 := updated_world _ _ _ _ _ _) in *.
  assert (Hbase : StateAccessFrame.update_state key prop_name value w
                  = (Returns (PyBool (negb (py_eqb (cell_value c) value))), w2)).
  { unfold StateAccessFrame.update_state.
    erewrite bind_returns; [| exact Hget].
    cbn [descriptor is_event_prop backend_immutable]. rewrite Hev, Him.
    cbn [orb]. erewrite bind_returns; [reflexivity | exact Hupd]. }
  split; [reflexivity |]. split; [exact Hbase |]. split; [| split].
  - intros self. unfold AppRunnerFrame.update_state.
    erewrite bind_returns; [| apply super_returns; exact Hbase].
    cbn [truthy]. by destruct (negb (py_eqb (cell_value c) value)).
  - unfold TaskFrame.update_state.
    erewrite bind_returns; [| exact Hbase].
    cbn [truthy]. by destruct (negb (py_eqb (cell_value c) value)).
  - intros <-. rewrite py_eqb_refl. cbn [negb].
    subst w2. rewrite updated_world_same by apply py_eqb_refl.
    repeat split.
    + cbn. by rewrite <- app_assoc.
    + intros self. unfold UIUpdatesFrame.update_state, try_except_KeyError.
      rewrite (super_returns _ _ _ _ _ Hget).
      erewrite bind_returns; [| apply super_returns; exact Hupd].
      rewrite py_eqb_refl. cbn [negb].
      by rewrite updated_world_same by apply py_eqb_refl.
Qed.

Lemma update_state_reports_change_witness :
  State.cell "counter" "value" Sample.world = Some Sample.counter_value
  ∧ StateAccessFrame.update_state "counter" "value" (PyInt 0) Sample.world
    = (Returns (PyBool false),
       set_calls [call_state_get_prop "counter" "value";
                  call_state__update "counter" "value" (PyInt 0)]
         Sample.world)
  ∧ AppRunnerFrame.update_state "counter" "value" (PyInt 0)
      (Sample.app_self, Sample.world)
    = (Returns PyNone,
       (Sample.app_self,
        set_calls [call_state_get_prop "counter" "value";
                   call_state__update "counter" "value" (PyInt 0)]
          Sample.world))
  ∧ (AppRunnerFrame.update_state "counter" "value" (PyInt 7)
       (Sample.app_self, Sample.world)).2.1
    = AppRunnerFrame.add_mutation ("counter", "value") Sample.app_self.
Proof.
  assert (Hcell : State.cell "counter" "value" Sample.world
                  = Some Sample.counter_value) by reflexivity.
  pose proof (update_state_reports_change "counter" "value" (PyInt 0)
                Sample.counter_value Sample.world Hcell eq_refl eq_refl) as H0.
  pose proof (update_state_reports_change "counter" "value" (PyInt 7)
                Sample.counter_value Sample.world Hcell eq_refl eq_refl) as H7.
  cbn zeta in H0, H7.
  destruct H0 as (_ & Hbase0 & Happ0 & _).
  destruct H7 as (_ & _ & Happ7 & _).
  split; [exact Hcell |].
  split; [exact Hbase0 |].
  split; [exact (Happ0 Sample.app_self) |].
  by rewrite (Happ7 Sample.app_self).
Defined.

(** ** Bookkeeping of UIUpdatesFrame *)

Lemma set_prop_value_eq prop w :
  UIPropState.set_prop_value prop w
  = (Returns (),
     set_ui_prop_state
       (match UIPropState.value_of prop w with
        | Some v => <[prop_id prop := v]> (ui_prop_state w)
        | None => delete (prop_id prop) (ui_prop_state w)
        end)
       (set_calls (calls w ++ [call_ui_prop_state_set_prop_value prop]) w)).
Proof. reflexivity. Qed.

Lemma set_prop_value_pushed prop w :
  ui_prop_state (UIPropState.set_prop_value prop w).2 !! prop_id prop
  = UIPropState.value_of prop w.
Proof.
  rewrite set_prop_value_eq. cbn.
  destruct (UIPropState.value_of prop w).
  - apply lookup_insert_eq.
  - apply lookup_delete_eq.
Qed.

Lemma ui_update_state_by_report key prop_name value self prop updated w w1 w2 :
  State.get_prop key prop_name w = (Returns prop, w1) →
  State._update key prop_name value w1 = (Returns updated, w2) →
  UIUpdatesFrame.update_state key prop_name value (self, w)
  = (Returns PyNone, ui_recorded key prop_name prop updated self w2).
Proof.
  intros Hget Hupd.
  unfold UIUpdatesFrame.update_state, try_except_KeyError, ui_recorded.
  rewrite (super_returns _ _ _ _ _ Hget).
  erewrite bind_returns; [| apply super_returns; exact Hupd].
  destruct updated; [| reflexivity].
  by destruct (is_event_prop prop).
Qed.

Lemma ui_reset_state_by_report key prop_name self prop updated w w1 w2 :
  State.get_prop key prop_name w = (Returns prop, w1) →
  State._reset key prop_name w1 = (Returns updated, w2) →
  UIUpdatesFrame.reset_state key prop_name (self, w)
  = (Returns PyNone, ui_recorded key prop_name prop updated self w2).
Proof.
  intros Hget Hres. unfold UIUpdatesFrame.reset_state, ui_recorded.
  erewrite bind_returns; [| apply super_returns; exact Hget].
  erewrite bind_returns; [| apply super_returns; exact Hres].
  destruct updated; [| reflexivity].
  by destruct (is_event_prop prop).
Qed.

Lemma recorded_world key prop_name prop updated self w2 :
  let w' := (ui_recorded key prop_name prop updated self w2).2 in
  state w' = state w2
  ∧ calls w'
    = calls w2
        ++ (if updated then [call_ui_prop_state_set_prop_value prop] else []).
Proof.
  unfold ui_recorded. destruct updated; cbn; [done |]. by rewrite app_nil_r.
Qed.

(** C8: in a UIUpdatesFrame, once the property was found, [update_state]
    and [reset_state] go by what the store reports.  On a change, the pair
    is added to [mutations], it is added to [event_mutations] exactly when
    the descriptor has [is_event_prop], and the descriptor is handed to the
    outgoing-diff tracker's [set_prop_value], which then holds the
    property's new value.  On no change, the frame's sets and the world are
    as the store left them. *)
Theorem ui_updates_recorded
    (key : Key) (prop_name : PropName) (self : UIUpdatesFrame.t)
    (prop : StoredProp) (updated : bool) (w w1 w2 : World) :
  State.get_prop key prop_name w = (Returns prop, w1) →
  let pushed := (UIPropState.set_prop_value prop w2).2 in
  let recorded :=
    if updated then
      ({| UIUpdatesFrame.mutations :=
            {[(key, prop_name)]} ∪ UIUpdatesFrame.mutations self;
          UIUpdatesFrame.event_mutations :=
            if is_event_prop prop
            then {[(key, prop_name)]} ∪ UIUpdatesFrame.event_mutations self
            else UIUpdatesFrame.event_mutations self |},
       pushed)
    else (self, w2) in
  (∀ value,
     State._update key prop_name value w1 = (Returns updated, w2) →
     UIUpdatesFrame.update_state key prop_name value (self, w)
     = (Returns PyNone, recorded))
  ∧ (State._reset key prop_name w1 = (Returns updated, w2) →
     UIUpdatesFrame.reset_state key prop_name (self, w)
     = (Returns PyNone, recorded))
  ∧ calls pushed = calls w2 ++ [call_ui_prop_state_set_prop_value prop]
  ∧ prop_id prop = (key, prop_name)
  ∧ ui_prop_state pushed !! (key, prop_name)
    = cell_value <$> State.cell key prop_name w2.
Proof.
  intros Hget. cbn zeta.
  destruct (get_prop_inv _ _ _ _ _ Hget) as (_ & c & _ & Hprop).
  assert (Hid : prop_id prop = (key, prop_name)) by (by subst prop).
  split; [| split; [| split; [| split]]].
  - intros value Hupd.
    by rewrite (ui_update_state_by_report _ _ _ _ _ _ _ _ _ Hget Hupd).
  - intros Hres.
    by rewrite (ui_reset_state_by_report _ _ _ _ _ _ _ _ Hget Hres).
  - reflexivity.
  - exact Hid.
  - rewrite <- Hid, set_prop_value_pushed. by subst prop.
Qed.

Lemma ui_updates_recorded_witness :
  UIUpdatesFrame.update_state "button" "clicked" (PyBool false)
    (Sample.ui_self, Sample.world)
  = (Returns PyNone,
     ({| UIUpdatesFrame.mutations := {[("button", "clicked")]} ∪ ∅;
         UIUpdatesFrame.event_mutations := {[("button", "clicked")]} ∪ ∅ |},
      (UIPropState.set_prop_value
         (descriptor "button" "clicked" Sample.button_clicked)
         (State._update "button" "clicked" (PyBool false)
            (looked_up "button" "clicked" Sample.world)).2).2))
  ∧ UIUpdatesFrame.reset_state "counter" "value" (Sample.ui_self, Sample.world)
    = (Returns PyNone,
       (Sample.ui_self,
        (State._reset "counter" "value"
           (looked_up "counter" "value" Sample.world)).2)).
Proof.
  split.
  - exact (proj1 (ui_updates_recorded "button" "clicked" Sample.ui_self
                    (descriptor "button" "clicked" Sample.button_clicked)
                    true Sample.world _ _ eq_refl)
             (PyBool false) eq_refl).
  - exact (proj1 (proj2 (ui_updates_recorded "counter" "value" Sample.ui_self
                           (descriptor "counter" "value" Sample.counter_value)
                           false Sample.world _ _ eq_refl))
             eq_refl).
Defined.

(** ** The mutation queue fed by TaskFrame *)

Lemma enqueue_eq l w :
  AppRunner.enqueue_task_mutations l w
  = (Returns (),
     set_task_mutations (task_mutations w ++ l)
       (set_calls (calls w ++ [call_enqueue_task_mutations l]) w)).
Proof. reflexivity. Qed.

(** C9: in a TaskFrame, [update_state] and [reset_state] on a stored
    property call [enqueue_task_mutations] with the one-element list
    [(key, prop_name)] exactly when the write was legal and the store
    reported a change; a write that changes nothing, or one rejected by the
    legality checks, enqueues nothing. *)
Theorem task_frame_enqueues
    (key : Key) (prop_name : PropName) (c : PropCell) (w : World) :
  State.cell key prop_name w = Some c →
  let w1 := looked_up key prop_name w in
  let legal_write := negb (cell_is_event_prop c || cell_backend_immutable c) in
  let legal_reset := negb (cell_is_event_prop c) in
  (∀ value,
     let changed := negb (py_eqb (cell_value c) value) in
     let r := TaskFrame.update_state key prop_name value w in
     (State._update key prop_name value w1).1 = Returns changed
     ∧ r.1 = (if legal_write then Returns PyNone
              else Raises (IllegalMutation prop_name))
     ∧ task_mutations r.2
       = task_mutations w
           ++ (if legal_write && changed then [(key, prop_name)] else [])
     ∧ calls r.2
       = calls w ++ [call_state_get_prop key prop_name]
           ++ (if legal_write then [call_state__update key prop_name value]
               else [])
           ++ (if legal_write && changed
               then [call_enqueue_task_mutations [(key, prop_name)]]
               else []))
  ∧ (let changed := negb (py_eqb (cell_value c) (cell_default c)) in
     let r := TaskFrame.reset_state key prop_name w in
     (State._reset key prop_name w1).1 = Returns changed
     ∧ r.1 = (if legal_reset then Returns PyNone
              else Raises (IllegalReset prop_name))
     ∧ task_mutations r.2
       = task_mutations w
           ++ (if legal_reset && changed then [(key, prop_name)] else [])
     ∧ calls r.2
       = calls w ++ [call_state_get_prop key prop_name]
           ++ (if legal_reset then [call_state__reset key prop_name] else [])
           ++ (if legal_reset && changed
               then [call_enqueue_task_mutations [(key, prop_name)]]
               else [])).
Proof.
  intros Hcell. cbn zeta.
  pose proof (get_prop_found _ _ _ _ Hcell) as Hget.
  assert (Hcell1 : State.cell key prop_name (looked_up key prop_name w) = Some c)
    by exact Hcell.
  split.
  - intros value.
    pose proof (update_found _ _ value _ _ Hcell1) as Hupd.
    pose proof (updated_world_frame key prop_name c value
                  (call_state__update key prop_name value)
                  (looked_up key prop_name w)) as Hframe.
    cbn zeta in Hframe. destruct Hframe as (Hcalls & Htm & _).
    remember (updated_world key prop_name c value
                (call_state__update key prop_name value)
                (looked_up key prop_name w)) as w2 eqn:Hw2.
    rewrite Hupd. split; [reflexivity |].
    unfold TaskFrame.update_state, StateAccessFrame.update_state.
    destruct (cell_is_event_prop c || cell_backend_immutable c) eqn:Hflags.
    + erewrite bind_raises;
        [| erewrite bind_returns; [| exact Hget]; cbn [descriptor is_event_prop
             backend_immutable]; rewrite Hflags; reflexivity].
      cbn. by rewrite app_nil_r.
    + erewrite bind_returns;
        [| erewrite bind_returns; [| exact Hget]; cbn [descriptor is_event_prop
             backend_immutable]; rewrite Hflags;
           erewrite bind_returns; [reflexivity | exact Hupd]].
      cbn [truthy negb andb].
      destruct (negb (py_eqb (cell_value c) value)).
      * erewrite bind_returns; [| apply enqueue_eq].
        cbn. rewrite Hcalls, Htm. cbn. by rewrite <- !app_assoc.
      * erewrite bind_returns; [| reflexivity].
        cbn. rewrite Hcalls, Htm. cbn. by rewrite !app_nil_r, <- !app_assoc.
  - pose proof (reset_found _ _ _ _ Hcell1) as Hres.
    pose proof (updated_world_frame key prop_name c (cell_default c)
                  (call_state__reset key prop_name)
                  (looked_up key prop_name w)) as Hframe.
    cbn zeta in Hframe. destruct Hframe as (Hcalls & Htm & _).
    remember (updated_world key prop_name c (cell_default c)
                (call_state__reset key prop_name)
                (looked_up key prop_name w)) as w2 eqn:Hw2.
    rewrite Hres. split; [reflexivity |].
    unfold TaskFrame.reset_state, StateAccessFrame.reset_state.
    destruct (cell_is_event_prop c) eqn:Hflag.
    + erewrite bind_raises;
        [| erewrite bind_returns; [| exact Hget]; cbn [descriptor is_event_prop];
           rewrite Hflag; reflexivity].
      cbn. by rewrite app_nil_r.
    + erewrite bind_returns;
        [| erewrite bind_returns; [| exact Hget]; cbn [descriptor is_event_prop];
           rewrite Hflag;
           erewrite bind_returns; [reflexivity | exact Hres]].
      cbn [truthy negb andb].
      destruct (negb (py_eqb (cell_value c) (cell_default c))).
      * erewrite bind_returns; [| apply enqueue_eq].
        cbn. rewrite Hcalls, Htm. cbn. by rewrite <- !app_assoc.
      * erewrite bind_returns; [| reflexivity].
        cbn. rewrite Hcalls, Htm. cbn. by rewrite !app_nil_r, <- !app_assoc.
Qed.

Lemma task_frame_enqueues_witness :
  State.cell "label" "text" Sample.world = Some Sample.label_text
  ∧ task_mutations
      (TaskFrame.update_state "label" "text" (PyStr "bye") Sample.world).2
    = [("label", "text")]
  ∧ task_mutations
      (TaskFrame.update_state "label" "text" (PyStr "hello") Sample.world).2
    = []
  ∧ task_mutations (TaskFrame.reset_state "label" "text" Sample.world).2
    = [("label", "text")]
  ∧ task_mutations
      (TaskFrame.update_state "window" "width" (PyInt 1) Sample.world).2
    = [].
Proof.
  assert (Hlabel : State.cell "label" "text" Sample.world
                   = Some Sample.label_text) by reflexivity.
  assert (Hwindow : State.cell "window" "width" Sample.world
                    = Some Sample.window_width) by reflexivity.
  pose proof (task_frame_enqueues "label" "text" Sample.label_text
                Sample.world Hlabel) as Hl.
  pose proof (task_frame_enqueues "window" "width" Sample.window_width
                Sample.world Hwindow) as Hw.
  cbn zeta in Hl, Hw. destruct Hl as (Hlu & Hlr). destruct Hw as (Hwu & _).
  split; [exact Hlabel |].
  split; [exact (proj1 (proj2 (proj2 (Hlu (PyStr "bye"))))) |].
  split; [exact (proj1 (proj2 (proj2 (Hlu (PyStr "hello"))))) |].
  split; [exact (proj1 (proj2 (proj2 Hlr))) |].
  exact (proj1 (proj2 (proj2 (Hwu (PyInt 1))))).
Defined.

(** ** No legality check in UIUpdatesFrame *)

(** C10: [update_state] and [reset_state] of a UIUpdatesFrame never fail
    with IllegalMutation or IllegalReset (they raise no [ValueError] at all).
    For every stored property, whatever its [is_event_prop] and
    [backend_immutable] flags, they return normally after passing the write
    or the reset to the state store right after the lookup, and a differing
    value is in the store afterwards. *)
Theorem ui_updates_unchecked
    (key : Key) (prop_name : PropName) (value : PyValue)
    (self : UIUpdatesFrame.t) (w : World) :
  let u := UIUpdatesFrame.update_state key prop_name value (self, w) in
  let r := UIUpdatesFrame.reset_state key prop_name (self, w) in
  (∀ msg, u.1 ≠ Raises (ValueError msg))
  ∧ (∀ msg, r.1 ≠ Raises (ValueError msg))
  ∧ (∀ c, State.cell key prop_name w = Some c →
       u.1 = Returns PyNone
       ∧ state u.2.2
         = state (State._update key prop_name value
                    (looked_up key prop_name w)).2
       ∧ (∃ rest,
            calls u.2.2
            = calls w ++ [call_state_get_prop key prop_name;
                          call_state__update key prop_name value] ++ rest)
       ∧ (py_eqb (cell_value c) value = false →
          cell_value <$> State.cell key prop_name u.2.2 = Some value)
       ∧ r.1 = Returns PyNone
       ∧ state r.2.2
         = state (State._reset key prop_name (looked_up key prop_name w)).2
       ∧ (∃ rest,
            calls r.2.2
            = calls w ++ [call_state_get_prop key prop_name;
                          call_state__reset key prop_name] ++ rest)
       ∧ (py_eqb (cell_value c) (cell_default c) = false →
          cell_value <$> State.cell key prop_name r.2.2
          = Some (cell_default c))).
Proof.
  cbn zeta.
  assert (Hfound : ∀ c, State.cell key prop_name w = Some c →
    UIUpdatesFrame.update_state key prop_name value (self, w)
    = (Returns PyNone,
       ui_recorded key prop_name (descriptor key prop_name c)
         (negb (py_eqb (cell_value c) value)) self
         (updated_world key prop_name c value
            (call_state__update key prop_name value)
            (looked_up key prop_name w)))
    ∧ UIUpdatesFrame.reset_state key prop_name (self, w)
      = (Returns PyNone,
         ui_recorded key prop_name (descriptor key prop_name c)
           (negb (py_eqb (cell_value c) (cell_default c))) self
           (updated_world key prop_name c (cell_default c)
              (call_state__reset key prop_name)
              (looked_up key prop_name w)))).
  { intros c Hcell. split.
    - eapply ui_update_state_by_report.
      + by apply get_prop_found.
      + by apply update_found.
    - eapply ui_reset_state_by_report.
      + by apply get_prop_found.
      + by apply reset_found. }
  split; [| split].
  - intros msg. destruct (State.cell key prop_name w) as [c |] eqn:Hcell.
    + by rewrite (proj1 (Hfound c eq_refl)).
    + destruct (State.get_prop key prop_name w) as [o w1] eqn:Hget.
      destruct (get_prop_inv _ _ _ _ _ Hget) as (_ & Ho).
      destruct o as [prop | e].
      * destruct Ho as (c & Hc & _). congruence.
      * destruct Ho as (_ & missing & ->).
        unfold UIUpdatesFrame.update_state, try_except_KeyError.
        by rewrite (super_raises _ _ _ _ _ Hget).
  - intros msg. destruct (State.cell key prop_name w) as [c |] eqn:Hcell.
    + by rewrite (proj2 (Hfound c eq_refl)).
    + destruct (State.get_prop key prop_name w) as [o w1] eqn:Hget.
      destruct (get_prop_inv _ _ _ _ _ Hget) as (_ & Ho).
      destruct o as [prop | e].
      * destruct Ho as (c & Hc & _). congruence.
      * destruct Ho as (_ & missing & ->).
        unfold UIUpdatesFrame.reset_state.
        erewrite bind_raises; [| apply super_raises; exact Hget]. done.
  - intros c Hcell. destruct (Hfound c Hcell) as (-> & ->).
    assert (Hcell1 : State.cell key prop_name (looked_up key prop_name w)
                     = Some c) by exact Hcell.
    rewrite (update_found _ _ value _ _ Hcell1), (reset_found _ _ _ _ Hcell1).
    cbn [fst snd].
    pose proof (updated_world_frame key prop_name c value
                  (call_state__update key prop_name value)
                  (looked_up key prop_name w)) as Hfu.
    pose proof (updated_world_frame key prop_name c (cell_default c)
                  (call_state__reset key prop_name)
                  (looked_up key prop_name w)) as Hfr.
    cbn zeta in Hfu, Hfr.
    destruct Hfu as (Hcu & _). destruct Hfr as (Hcr & _).
    pose proof (recorded_world key prop_name (descriptor key prop_name c)) as Hrec.
    cbn zeta in Hrec.
    split; [reflexivity |]. split; [apply Hrec |].
    split.
    { eexists. rewrite (proj2 (Hrec _ _ _)), Hcu. cbn [looked_up set_calls calls].
      rewrite <- !app_assoc. reflexivity. }
    split.
    { intros Hne. unfold State.cell at 1. rewrite (proj1 (Hrec _ _ _)).
      by apply (updated_world_cell key prop_name c value _ _ Hcell1). }
    split; [reflexivity |]. split; [apply Hrec |].
    split.
    { eexists. rewrite (proj2 (Hrec _ _ _)), Hcr. cbn [looked_up set_calls calls].
      rewrite <- !app_assoc. reflexivity. }
    intros Hne. unfold State.cell at 1. rewrite (proj1 (Hrec _ _ _)).
    by apply (updated_world_cell key prop_name c (cell_default c) _ _ Hcell1).
Qed.

Lemma ui_updates_unchecked_witness :
  State.cell "button" "clicked" Sample.world = Some Sample.button_clicked
  ∧ State.cell "window" "width" Sample.world = Some Sample.window_width
  ∧ (UIUpdatesFrame.update_state "button" "clicked" (PyBool false)
       (Sample.ui_self, Sample.world)).1 = Returns PyNone
  ∧ cell_value
      <$> State.cell "window" "width"
            (UIUpdatesFrame.update_state "window" "width" (PyInt 1024)
               (Sample.ui_self, Sample.world)).2.2
    = Some (PyInt 1024)
  ∧ cell_value
      <$> State.cell "button" "clicked"
            (UIUpdatesFrame.reset_state "button" "clicked"
               (Sample.ui_self, Sample.world)).2.2
    = Some (PyBool false).
Proof.
  assert (Hb : State.cell "button" "clicked" Sample.world
               = Some Sample.button_clicked) by reflexivity.
  assert (Hw : State.cell "window" "width" Sample.world
               = Some Sample.window_width) by reflexivity.
  pose proof (ui_updates_unchecked "button" "clicked" (PyBool false)
                Sample.ui_self Sample.world) as H1.
  pose proof (ui_updates_unchecked "window" "width" (PyInt 1024)
                Sample.ui_self Sample.world) as H2.
  cbn zeta in H1, H2.
  destruct H1 as (_ & _ & H1). destruct H2 as (_ & _ & H2).
  destruct (H1 _ Hb) as (Hu & _ & _ & _ & _ & _ & _ & Hr).
  destruct (H2 _ Hw) as (_ & _ & _ & Hv & _).
  split; [exact Hb |]. split; [exact Hw |]. split; [exact Hu |].
  split; [exact (Hv eq_refl) | exact (Hr eq_refl)].
Defined.

(** * Further properties of the frames *)

(** ** Leaving a frame *)




(** ** Nesting *)

Lemma with_current {T} (self : FrameRef) (body : Py World T) (w : World) :
  keeps_token_of self body →
  (with_ self body w).1 = (body (entered self w)).1
  ∧ _current_frame (with_ self body w).2 = _current_frame w
  ∧ _current_frame_token (with_ self body w).2
    = <[frame_id self := {| old_value := _current_frame w; used := true |}]>
        (_current_frame_token (body (entered self w)).2).
Proof. intros Hkeep. by rewrite (with_eq _ _ _ Hkeep). Qed.

(** Brackets touch the tokens of their own frames only. *)
Lemma nested_with_tokens {T} (frames : list FrameRef) (body : Py World T) :
  keeps_tokens body →
  NoDup (frame_id <$> frames) →
  ∀ i w, i ∉ frame_id <$> frames →
         _current_frame_token (nested_with frames body w).2 !! i
         = _current_frame_token w !! i.
Proof.
  intros Hbody. induction frames as [| f frames IH]; intros Hnd i w Hi.
  - cbn. by rewrite Hbody.
  - cbn [nested_with foldr]. fold (nested_with frames body).
    rewrite fmap_cons in Hnd, Hi. apply NoDup_cons in Hnd as [Hf Hnd].
    apply not_elem_of_cons in Hi as [Hif Hi].
    assert (Hkeep : keeps_token_of f (nested_with frames body)).
    { intros w'. by apply IH. }
    destruct (with_current f (nested_with frames body) w Hkeep)
      as (_ & _ & ->).
    rewrite lookup_insert_ne by done.
    rewrite IH by done. cbn. by rewrite lookup_insert_ne.
Qed.

Lemma nested_with_keeps {T} (f : FrameRef) (frames : list FrameRef)
    (body : Py World T) :
  keeps_tokens body →
  NoDup (frame_id <$> f :: frames) →
  keeps_token_of f (nested_with frames body).
Proof.
  intros Hbody Hnd w. rewrite fmap_cons in Hnd.
  apply NoDup_cons in Hnd as [Hf Hnd]. by apply nested_with_tokens.
Qed.

Lemma nested_with_outcome {T} (frames : list FrameRef) (body : Py World T) :
  keeps_tokens body →
  NoDup (frame_id <$> frames) →
  ∀ w, (nested_with frames body w).1 = (body (entered_all frames w)).1.
Proof.
  intros Hbody. induction frames as [| f frames IH]; intros Hnd w; [done |].
  cbn [nested_with foldr]. fold (nested_with frames body).
  destruct (with_current f (nested_with frames body) w
              (nested_with_keeps _ _ _ Hbody Hnd)) as (-> & _).
  rewrite fmap_cons in Hnd. apply NoDup_cons in Hnd as [_ Hnd].
  by rewrite IH.
Qed.

Lemma entered_all_snoc frames f w :
  entered_all (frames ++ [f]) w = entered f (entered_all frames w).
Proof. unfold entered_all. by rewrite foldl_app. Qed.

Lemma entered_all_current frames w :
  _current_frame (entered_all frames w)
  = match last frames with Some f => Some f | None => _current_frame w end.
Proof.
  destruct frames as [| f frames _] using rev_ind; [done |].
  by rewrite entered_all_snoc, last_snoc.
Qed.

(** X2: brackets nest to any depth.  For frames that are distinct objects
    and bracketed code that does not enter or exit frames on its own, the
    code runs with the innermost frame as the current one, its outcome
    (value or exception) is the outcome of the whole nest, and afterwards
    the current frame is the one from before the outermost bracket, also
    when there was none. *)
Theorem nested_brackets_restore {T}
    (outer : FrameRef) (frames : list FrameRef) (body : Py World T)
    (w : World) :
  NoDup (frame_id <$> outer :: frames) →
  keeps_tokens body →
  let inside := entered_all (outer :: frames) w in
  _current_frame inside = Some (default outer (last frames))
  ∧ (nested_with (outer :: frames) body w).1 = (body inside).1
  ∧ _current_frame (nested_with (outer :: frames) body w).2
    = _current_frame w.
Proof.
  intros Hnd Hbody. cbn zeta. split; [| split].
  - rewrite entered_all_current.
    destruct frames as [| f frames _] using rev_ind; [done |].
    rewrite app_comm_cons, !last_snoc. done.
  - by apply nested_with_outcome.
  - cbn [nested_with foldr]. fold (nested_with frames body).
    by destruct (with_current outer (nested_with frames body) w
                   (nested_with_keeps _ _ _ Hbody Hnd)) as (_ & -> & _).
Qed.

Lemma nested_brackets_restore_witness :
  NoDup (frame_id <$> Sample.app_frame :: [Sample.task_frame])
  ∧ keeps_tokens Sample.failing_body
  ∧ (nested_with [Sample.app_frame; Sample.task_frame] Sample.failing_body
       Sample.world).1 = Raises (ValueError "boom")
  ∧ _current_frame
      (nested_with [Sample.app_frame; Sample.task_frame] Sample.failing_body
         Sample.world).2 = None.
Proof.
  assert (Hnd : NoDup (frame_id <$> Sample.app_frame :: [Sample.task_frame])).
  { apply (bool_decide_unpack _). vm_compute. exact I. }
  assert (Hkeep : keeps_tokens Sample.failing_body) by (intros w; reflexivity).
  pose proof (nested_brackets_restore Sample.app_frame [Sample.task_frame]
                Sample.failing_body Sample.world Hnd Hkeep) as H.
  cbn zeta in H. destruct H as (_ & Hout & Hcur).
  split; [exact Hnd |]. split; [exact Hkeep |]. split; [exact Hout | exact Hcur].
Defined.

Lemma with_unfold {T} (self : FrameRef) (body : Py World T) (w : World) :
  with_ self body w
  = match Frame.__exit__ self (body (entered self w)).2 with
    | (Returns _, w') => ((body (entered self w)).1, w')
    | (Raises e, w') => (Raises e, w')
    end.
Proof.
  unfold with_. erewrite bind_returns; [| apply enter_eq].
  unfold try_finally. by destruct (body (entered self w)).
Qed.

(** X3: a frame object cannot be entered again inside its own bracket.
    The inner [__enter__] replaces the one token the object keeps, the inner
    [__exit__] uses it up, and the outer [__exit__] then fails with
    RuntimeError in place of whatever the bracketed code returned or raised;
    the current frame is left at that frame instead of the one from before
    the outer bracket. *)
Theorem reentered_frame_is_not_restored {T}
    (self : FrameRef) (body : Py World T) (w : World) :
  keeps_token_of self body →
  (with_ self (with_ self body) w).1
    = Raises (RuntimeError "<Token> has already been used once")
  ∧ _current_frame (with_ self (with_ self body) w).2 = Some self.
Proof.
  intros Hkeep. rewrite with_unfold, (with_eq _ _ _ Hkeep). cbn [fst snd].
  erewrite exit_used; [done | cbn; apply lookup_insert_eq | reflexivity].
Qed.

Lemma reentered_frame_is_not_restored_witness :
  keeps_token_of Sample.app_frame Sample.failing_body
  ∧ (with_ Sample.app_frame (with_ Sample.app_frame Sample.failing_body)
       Sample.world).1
    = Raises (RuntimeError "<Token> has already been used once")
  ∧ _current_frame
      (with_ Sample.app_frame (with_ Sample.app_frame Sample.failing_body)
         Sample.world).2
    = Some Sample.app_frame
  ∧ _current_frame Sample.world = None.
Proof.
  assert (Hkeep : keeps_token_of Sample.app_frame Sample.failing_body)
    by (intros w; reflexivity).
  pose proof (reentered_frame_is_not_restored Sample.app_frame
                Sample.failing_body Sample.world Hkeep) as (H1 & H2).
  split; [exact Hkeep |]. split; [exact H1 |]. split; [exact H2 | reflexivity].
Defined.

(** X4: the brackets must close in the reverse order of their opening.
    When frame A is entered, then frame B, and A is left first, both exits
    return normally, but each restores what it saw on entry: after A's exit
    the current frame is the one from before A, and after B's exit it is A,
    whose bracket has ended. *)
Theorem exits_out_of_order_leave_stale_frame (A B : FrameRef) (w : World) :
  frame_id A ≠ frame_id B →
  let inside := (Frame.__enter__ B (Frame.__enter__ A w).2).2 in
  let after_A := Frame.__exit__ A inside in
  let after_B := Frame.__exit__ B after_A.2 in
  after_A.1 = Returns ()
  ∧ _current_frame after_A.2 = _current_frame w
  ∧ after_B.1 = Returns ()
  ∧ _current_frame after_B.2 = Some A.
Proof.
  intros Hne. cbn zeta. rewrite !enter_eq. cbn [snd].
  erewrite (exit_eq A {| old_value := _current_frame w; used := false |});
    [| cbn; rewrite lookup_insert_ne by done; apply lookup_insert_eq
     | reflexivity].
  cbn [fst snd].
  erewrite (exit_eq B {| old_value := Some A; used := false |});
    [done | | reflexivity].
  cbn. rewrite lookup_insert_ne by done. apply lookup_insert_eq.
Qed.

Lemma exits_out_of_order_leave_stale_frame_witness :
  frame_id Sample.app_frame ≠ frame_id Sample.task_frame
  ∧ _current_frame
      (Frame.__exit__ Sample.task_frame
         (Frame.__exit__ Sample.app_frame
            (Frame.__enter__ Sample.task_frame
               (Frame.__enter__ Sample.app_frame Sample.world).2).2).2).2
    = Some Sample.app_frame.
Proof.
  assert (Hne : frame_id Sample.app_frame ≠ frame_id Sample.task_frame)
    by discriminate.
  pose proof (exits_out_of_order_leave_stale_frame Sample.app_frame
                Sample.task_frame Sample.world Hne) as H.
  cbn zeta in H. split; [exact Hne | exact (proj2 (proj2 (proj2 H)))].
Defined.

(** ** Which class satisfies which request *)

(** X5: with a frame active, [Frame.current()] returns it whatever its
    class; [StateAccessFrame.current()] returns it unless it is a bare
    [Frame]; and a request for one of the five classes derived from
    StateAccessFrame is satisfied by a frame of exactly that class only,
    every other active frame giving WrongFrame. *)
Theorem current_by_class (frame : FrameRef) (cls : FrameClass) (w : World) :
  _current_frame w = Some frame →
  Frame.current C_Frame w = (Returns frame, w)
  ∧ (frame_type frame ≠ C_Frame →
     Frame.current C_StateAccessFrame w = (Returns frame, w))
  ∧ (frame_type frame = C_Frame →
     Frame.current C_StateAccessFrame w
     = (Raises (WrongFrame C_StateAccessFrame C_Frame), w))
  ∧ (base_class cls = Some C_StateAccessFrame →
     Frame.current cls w
     = if decide (frame_type frame = cls) then (Returns frame, w)
       else (Raises (WrongFrame cls (frame_type frame)), w)).
Proof.
  intros Hcur. rewrite !(current_with_frame _ frame w Hcur).
  unfold isinstance. destruct frame as [i ty]. cbn [frame_type].
  split; [by destruct ty |].
  split; [by destruct ty |].
  split; [by intros -> |].
  intros Hleaf. destruct ty, cls; try discriminate Hleaf; done.
Qed.

Lemma current_by_class_witness :
  Frame.current C_Frame Sample.world_in_task
    = (Returns Sample.task_frame, Sample.world_in_task)
  ∧ Frame.current C_RenderFrame Sample.world_in_task
    = (Raises (WrongFrame C_RenderFrame C_TaskFrame), Sample.world_in_task)
  ∧ Frame.current C_TaskFrame Sample.world_in_task
    = (Returns Sample.task_frame, Sample.world_in_task).
Proof.
  pose proof (current_by_class Sample.task_frame C_RenderFrame
                Sample.world_in_task eq_refl) as (H1 & _ & _ & H2).
  pose proof (current_by_class Sample.task_frame C_TaskFrame
                Sample.world_in_task eq_refl) as (_ & _ & _ & H3).
  split; [exact H1 |]. split; [exact (H2 eq_refl) | exact (H3 eq_refl)].
Defined.

(** ** The overrides of AppRunnerFrame and TaskFrame *)

Lemma app_get_state_eq key prop_name self w :
  AppRunnerFrame.get_state key prop_name (self, w)
  = match State._get key prop_name w with
    | (Returns value, w1) =>
        (Returns value, (AppRunnerFrame.add_dep (key, prop_name) self, w1))
    | (Raises e, w1) => (Raises e, (self, w1))
    end.
Proof.
  unfold AppRunnerFrame.get_state, StateAccessFrame.get_state.
  destruct (State._get key prop_name w) as [[value | e] w1] eqn:Hget.
  - erewrite bind_returns; [| by apply super_returns]. reflexivity.
  - erewrite bind_raises; [reflexivity | by apply super_raises].
Qed.

Lemma app_update_state_eq key prop_name value self w :
  AppRunnerFrame.update_state key prop_name value (self, w)
  = match StateAccessFrame.update_state key prop_name value w with
    | (Returns updated, w1) =>
        (Returns PyNone,
         (if truthy updated
          then AppRunnerFrame.add_mutation (key, prop_name) self else self,
          w1))
    | (Raises e, w1) => (Raises e, (self, w1))
    end.
Proof.
  unfold AppRunnerFrame.update_state.
  destruct (StateAccessFrame.update_state key prop_name value w)
    as [[updated | e] w1] eqn:Hbase.
  - erewrite bind_returns; [| by apply super_returns].
    by destruct (truthy updated).
  - erewrite bind_raises; [reflexivity | by apply super_raises].
Qed.

Lemma app_reset_state_eq key prop_name self w :
  AppRunnerFrame.reset_state key prop_name (self, w)
  = match StateAccessFrame.reset_state key prop_name w with
    | (Returns updated, w1) =>
        (Returns PyNone,
         (if truthy updated
          then AppRunnerFrame.add_mutation (key, prop_name) self else self,
          w1))
    | (Raises e, w1) => (Raises e, (self, w1))
    end.
Proof.
  unfold AppRunnerFrame.reset_state.
  destruct (StateAccessFrame.reset_state key prop_name w)
    as [[updated | e] w1] eqn:Hbase.
  - erewrite bind_returns; [| by apply super_returns].
    by destruct (truthy updated).
  - erewrite bind_raises; [reflexivity | by apply super_raises].
Qed.

Lemma task_update_state_eq key prop_name value w :
  TaskFrame.update_state key prop_name value w
  = match StateAccessFrame.update_state key prop_name value w with
    | (Returns updated, w1) =>
        (Returns PyNone,
         if truthy updated
         then (AppRunner.enqueue_task_mutations [(key, prop_name)] w1).2
         else w1)
    | (Raises e, w1) => (Raises e, w1)
    end.
Proof.
  unfold TaskFrame.update_state.
  destruct (StateAccessFrame.update_state key prop_name value w)
    as [[updated | e] w1] eqn:Hbase.
  - erewrite bind_returns; [| exact Hbase]. by destruct (truthy updated).
  - erewrite bind_raises; [reflexivity | exact Hbase].
Qed.

Lemma task_reset_state_eq key prop_name w :
  TaskFrame.reset_state key prop_name w
  = match StateAccessFrame.reset_state key prop_name w with
    | (Returns updated, w1) =>
        (Returns PyNone,
         if truthy updated
         then (AppRunner.enqueue_task_mutations [(key, prop_name)] w1).2
         else w1)
    | (Raises e, w1) => (Raises e, w1)
    end.
Proof.
  unfold TaskFrame.reset_state.
  destruct (StateAccessFrame.reset_state key prop_name w)
    as [[updated | e] w1] eqn:Hbase.
  - erewrite bind_returns; [| exact Hbase]. by destruct (truthy updated).
  - erewrite bind_raises; [reflexivity | exact Hbase].
Qed.

(** X6: the overrides only add bookkeeping to what StateAccessFrame does.
    For the same arguments in the same world, [update_state] and
    [reset_state] of an AppRunnerFrame leave exactly the world the base
    method leaves and raise exactly when it raises, with the same exception;
    those of a TaskFrame raise in the same cases and leave the same state
    store, differing from the base method's world in the task queue and the
    call log at most. *)
Theorem overrides_keep_base_effects
    (key : Key) (prop_name : PropName) (value : PyValue)
    (self : AppRunnerFrame.t) (w : World) :
  let bu := StateAccessFrame.update_state key prop_name value w in
  let br := StateAccessFrame.reset_state key prop_name w in
  let au := AppRunnerFrame.update_state key prop_name value (self, w) in
  let ar := AppRunnerFrame.reset_state key prop_name (self, w) in
  let tu := TaskFrame.update_state key prop_name value w in
  let tr := TaskFrame.reset_state key prop_name w in
  au.2.2 = bu.2 ∧ ar.2.2 = br.2
  ∧ (∀ e, (au.1 = Raises e ↔ bu.1 = Raises e)
          ∧ (ar.1 = Raises e ↔ br.1 = Raises e)
          ∧ (tu.1 = Raises e ↔ bu.1 = Raises e)
          ∧ (tr.1 = Raises e ↔ br.1 = Raises e))
  ∧ state tu.2 = state bu.2 ∧ state tr.2 = state br.2
  ∧ ui_prop_state tu.2 = ui_prop_state bu.2
  ∧ ui_prop_state tr.2 = ui_prop_state br.2
  ∧ events tu.2 = events bu.2 ∧ events tr.2 = events br.2
  ∧ logger tu.2 = logger bu.2 ∧ logger tr.2 = logger br.2.
Proof.
  cbn zeta.
  rewrite app_update_state_eq, app_reset_state_eq,
    task_update_state_eq, task_reset_state_eq.
  destruct (StateAccessFrame.update_state key prop_name value w)
    as [[uu | eu] wu];
    destruct (StateAccessFrame.reset_state key prop_name w)
      as [[ur | er] wr];
    cbn [fst snd];
    repeat match goal with
           | |- context [truthy ?u] => destruct (truthy u)
           end;
    repeat split; try done.
Qed.

(** ** Dependencies and dirtiness in AppRunnerFrame *)

Lemma _get_found k p c w :
  State.cell k p w = Some c →
  State._get k p w
  = (Returns (cell_value c), set_calls (calls w ++ [call_state__get k p]) w).
Proof.
  intros H. unfold State._get.
  erewrite bind_returns; [| reflexivity].
  erewrite bind_returns; [reflexivity |]. by apply lookup_cell_found.
Qed.

Lemma _get_missing k p w :
  State.cell k p w = None →
  ∃ missing,
    State._get k p w
    = (Raises (KeyError missing),
       set_calls (calls w ++ [call_state__get k p]) w).
Proof.
  intros H. unfold State._get.
  erewrite bind_returns; [| reflexivity].
  destruct (lookup_cell_cases k p (called (call_state__get k p) w).2)
    as [(c & Hc & _) | (_ & missing & Hl)].
  - assert (Hc' : State.cell k p w = Some c) by exact Hc. congruence.
  - exists missing. erewrite bind_raises; [reflexivity | exact Hl].
Qed.

Lemma dirty_iff self deps :
  AppRunnerFrame.deps_are_dirty self deps = true
  ↔ ∃ d, d ∈ deps
         ∧ (d ∈ AppRunnerFrame.mutations self
            ∨ d ∈ AppRunnerFrame.prev_frame_mutations self).
Proof.
  unfold AppRunnerFrame.deps_are_dirty, AppRunnerFrame.filter_dirty_deps.
  rewrite bool_decide_eq_true. split.
  - intros Hpos. apply size_pos_elem_of in Hpos as [d Hd].
    exists d. rewrite elem_of_intersection, elem_of_union in Hd. tauto.
  - intros (d & Hd & Hm).
    assert (Hin : d ∈ (AppRunnerFrame.mutations self
                        ∪ AppRunnerFrame.prev_frame_mutations self) ∩ deps).
    { rewrite elem_of_intersection, elem_of_union. tauto. }
    destruct (size _) eqn:Hsize; [| lia].
    apply size_empty_iff in Hsize. rewrite Hsize in Hin.
    by apply not_elem_of_empty in Hin.
Qed.

(** X7: [get_state] of an AppRunnerFrame returns what the store returns
    and records the pair in [deps] only when the read succeeded; a read of a
    property the store does not have propagates the store's exception and
    records nothing.  Either way [mutations] is untouched, so reading never
    turns a set of dependencies dirty or clean, and the store keeps its
    contents. *)
Theorem reads_record_dependencies
    (key : Key) (prop_name : PropName) (self : AppRunnerFrame.t) (w : World) :
  let g := State._get key prop_name w in
  let a := AppRunnerFrame.get_state key prop_name (self, w) in
  a.1 = g.1 ∧ a.2.2 = g.2
  ∧ AppRunnerFrame.mutations a.2.1 = AppRunnerFrame.mutations self
  ∧ (∀ deps, AppRunnerFrame.deps_are_dirty a.2.1 deps
             = AppRunnerFrame.deps_are_dirty self deps)
  ∧ state a.2.2 = state w
  ∧ (∀ c, State.cell key prop_name w = Some c →
          a.1 = Returns (cell_value c)
          ∧ AppRunnerFrame.deps a.2.1
            = {[(key, prop_name)]} ∪ AppRunnerFrame.deps self)
  ∧ (State.cell key prop_name w = None →
     (∃ missing, a.1 = Raises (UnknownProperty missing)) ∧ a.2.1 = self).
Proof.
  cbn zeta. rewrite app_get_state_eq.
  destruct (State.cell key prop_name w) as [c |] eqn:Hcell.
  - rewrite (_get_found _ _ _ _ Hcell). cbn [fst snd].
    do 5 (split; [done |]). split; [| done].
    by intros c' [= <-].
  - destruct (_get_missing _ _ _ Hcell) as (missing & ->). cbn [fst snd].
    do 5 (split; [done |]). split; [done |].
    intros _. split; [by exists missing | done].
Qed.

Lemma reads_record_dependencies_witness :
  AppRunnerFrame.get_state "counter" "value" (Sample.app_self, Sample.world)
  = (Returns (PyInt 0),
     (AppRunnerFrame.add_dep ("counter", "value") Sample.app_self,
      set_calls [call_state__get "counter" "value"] Sample.world))
  ∧ (AppRunnerFrame.get_state "gone" "value"
       (Sample.app_self, Sample.world)).2.1 = Sample.app_self.
Proof.
  pose proof (reads_record_dependencies "counter" "value" Sample.app_self
                Sample.world) as Hc.
  pose proof (reads_record_dependencies "gone" "value" Sample.app_self
                Sample.world) as Hg.
  cbn zeta in Hc, Hg.
  destruct Hc as (_ & _ & _ & _ & _ & Hfound & _).
  destruct Hg as (_ & _ & _ & _ & _ & _ & Hmissing).
  split; [| exact (proj2 (Hmissing eq_refl))].
  destruct (Hfound Sample.counter_value eq_refl) as (_ & _). reflexivity.
Defined.

Lemma app_call_grows c self w :
  let self' := (app_call c (self, w)).2.1 in
  AppRunnerFrame.deps self ⊆ AppRunnerFrame.deps self'
  ∧ AppRunnerFrame.mutations self ⊆ AppRunnerFrame.mutations self'
  ∧ AppRunnerFrame.prev_frame_mutations self'
    = AppRunnerFrame.prev_frame_mutations self
  ∧ AppRunnerFrame.keys self' = AppRunnerFrame.keys self
  ∧ AppRunnerFrame.scope_stack self' = AppRunnerFrame.scope_stack self.
Proof.
  cbn zeta. destruct c as [key p | key p v | key p]; cbn [app_call].
  - rewrite app_get_state_eq.
    destruct (State._get key p w) as [[value | e] w1]; cbn;
      repeat split; try done; apply union_subseteq_r.
  - rewrite app_update_state_eq.
    destruct (StateAccessFrame.update_state key p v w) as [[u | e] w1];
      [destruct (truthy u) |]; cbn;
      repeat split; try done; apply union_subseteq_r.
  - rewrite app_reset_state_eq.
    destruct (StateAccessFrame.reset_state key p w) as [[u | e] w1];
      [destruct (truthy u) |]; cbn;
      repeat split; try done; apply union_subseteq_r.
Qed.

(** X8: over any sequence of [get_state], [update_state] and [reset_state]
    calls on an AppRunnerFrame, ended or not by an exception, [deps] and
    [mutations] only grow, [prev_frame_mutations], [keys] and [scope_stack]
    stay as they were, and therefore a set of dependencies that was dirty
    stays dirty. *)
Theorem app_frame_records_only_grow
    (cs : list AppCall) (self : AppRunnerFrame.t) (w : World) :
  let self' := (app_calls cs (self, w)).2.1 in
  AppRunnerFrame.deps self ⊆ AppRunnerFrame.deps self'
  ∧ AppRunnerFrame.mutations self ⊆ AppRunnerFrame.mutations self'
  ∧ AppRunnerFrame.prev_frame_mutations self'
    = AppRunnerFrame.prev_frame_mutations self
  ∧ AppRunnerFrame.keys self' = AppRunnerFrame.keys self
  ∧ AppRunnerFrame.scope_stack self' = AppRunnerFrame.scope_stack self
  ∧ (∀ deps, AppRunnerFrame.deps_are_dirty self deps = true →
             AppRunnerFrame.deps_are_dirty self' deps = true).
Proof.
  cbn zeta.
  assert (H : AppRunnerFrame.deps self
                ⊆ AppRunnerFrame.deps (app_calls cs (self, w)).2.1
              ∧ AppRunnerFrame.mutations self
                ⊆ AppRunnerFrame.mutations (app_calls cs (self, w)).2.1
              ∧ AppRunnerFrame.prev_frame_mutations (app_calls cs (self, w)).2.1
                = AppRunnerFrame.prev_frame_mutations self
              ∧ AppRunnerFrame.keys (app_calls cs (self, w)).2.1
                = AppRunnerFrame.keys self
              ∧ AppRunnerFrame.scope_stack (app_calls cs (self, w)).2.1
                = AppRunnerFrame.scope_stack self).
  { revert self w. induction cs as [| c cs IH]; intros self w; [done |].
    cbn [app_calls].
    pose proof (app_call_grows c self w) as Hc. cbn zeta in Hc.
    destruct (app_call c (self, w)) as [[v | e] [self1 w1]] eqn:Hcall.
    - erewrite bind_returns; [| exact Hcall].
      specialize (IH self1 w1). cbn [fst snd] in Hc.
      destruct Hc as (Hd1 & Hm1 & Hp1 & Hk1 & Hs1).
      destruct IH as (Hd2 & Hm2 & Hp2 & Hk2 & Hs2).
      rewrite Hp2, Hk2, Hs2.
      split; [by etrans |]. split; [by etrans |]. done.
    - erewrite bind_raises; [| exact Hcall]. exact Hc. }
  destruct H as (Hd & Hm & Hp & Hk & Hs).
  repeat split; try done.
  intros deps. rewrite !dirty_iff. intros (d & Hin & Hor).
  exists d. rewrite Hp. split; [done |].
  destruct Hor as [Hmut | Hprev]; [left; by apply Hm | by right].
Qed.

(** The base methods return a [bool] or raise. *)
Lemma base_update_state_returns key prop_name value w u w1 :
  StateAccessFrame.update_state key prop_name value w = (Returns u, w1) →
  ∃ b, u = PyBool b.
Proof.
  unfold StateAccessFrame.update_state. intros Hb.
  destruct (State.get_prop key prop_name w) as [[prop | e] w0] eqn:Hg.
  - erewrite bind_returns in Hb; [| exact Hg].
    destruct (is_event_prop prop || backend_immutable prop); [done |].
    destruct (State._update key prop_name value w0) as [[b | e] w2] eqn:Hu.
    + erewrite bind_returns in Hb; [| exact Hu]. injection Hb as <- _. eauto.
    + erewrite bind_raises in Hb; [| exact Hu]. done.
  - erewrite bind_raises in Hb; [| exact Hg]. done.
Qed.

Lemma base_reset_state_returns key prop_name w u w1 :
  StateAccessFrame.reset_state key prop_name w = (Returns u, w1) →
  ∃ b, u = PyBool b.
Proof.
  unfold StateAccessFrame.reset_state. intros Hb.
  destruct (State.get_prop key prop_name w) as [[prop | e] w0] eqn:Hg.
  - erewrite bind_returns in Hb; [| exact Hg].
    destruct (is_event_prop prop); [done |].
    destruct (State._reset key prop_name w0) as [[b | e] w2] eqn:Hu.
    + erewrite bind_returns in Hb; [| exact Hu]. injection Hb as <- _. eauto.
    + erewrite bind_raises in Hb; [| exact Hu]. done.
  - erewrite bind_raises in Hb; [| exact Hg]. done.
Qed.

(** X9: a write or reset through an AppRunnerFrame that the base method
    reports as a change makes every set of dependencies that contains the
    pair dirty; one that it reports as no change, and one that fails, leaves
    the frame's records exactly as they were. *)
Theorem changed_write_dirties_dependents
    (key : Key) (prop_name : PropName) (value : PyValue)
    (self : AppRunnerFrame.t) (w : World) (deps : gset PropId) :
  (key, prop_name) ∈ deps →
  let bu := StateAccessFrame.update_state key prop_name value w in
  let br := StateAccessFrame.reset_state key prop_name w in
  let au := AppRunnerFrame.update_state key prop_name value (self, w) in
  let ar := AppRunnerFrame.reset_state key prop_name (self, w) in
  (bu.1 = Returns (PyBool true) →
   AppRunnerFrame.deps_are_dirty au.2.1 deps = true)
  ∧ (br.1 = Returns (PyBool true) →
     AppRunnerFrame.deps_are_dirty ar.2.1 deps = true)
  ∧ (bu.1 ≠ Returns (PyBool true) → au.2.1 = self)
  ∧ (br.1 ≠ Returns (PyBool true) → ar.2.1 = self).
Proof.
  intros Hin. cbn zeta.
  rewrite app_update_state_eq, app_reset_state_eq.
  assert (Hdirty : AppRunnerFrame.deps_are_dirty
                     (AppRunnerFrame.add_mutation (key, prop_name) self) deps
                   = true).
  { apply dirty_iff. exists (key, prop_name). split; [done |].
    left. cbn. apply elem_of_union_l. by apply elem_of_singleton. }
  split; [| split; [| split]].
  - destruct (StateAccessFrame.update_state key prop_name value w)
      as [[u | e] w1]; cbn [fst snd]; [| done]. by intros [= ->].
  - destruct (StateAccessFrame.reset_state key prop_name w)
      as [[u | e] w1]; cbn [fst snd]; [| done]. by intros [= ->].
  - destruct (StateAccessFrame.update_state key prop_name value w)
      as [[u | e] w1] eqn:Hb; cbn [fst snd]; [| done].
    intros Hne. destruct (base_update_state_returns _ _ _ _ _ _ Hb) as [b ->].
    destruct b; [by destruct Hne | done].
  - destruct (StateAccessFrame.reset_state key prop_name w)
      as [[u | e] w1] eqn:Hb; cbn [fst snd]; [| done].
    intros Hne. destruct (base_reset_state_returns _ _ _ _ _ Hb) as [b ->].
    destruct b; [by destruct Hne | done].
Qed.

Lemma changed_write_dirties_dependents_witness :
  ("label", "text") ∈ ({[("label", "text"); ("counter", "value")]} : gset PropId)
  ∧ AppRunnerFrame.deps_are_dirty
      (AppRunnerFrame.update_state "label" "text" (PyStr "bye")
         (AppRunnerFrame.__init__ None, Sample.world)).2.1
      {[("label", "text"); ("counter", "value")]} = true
  ∧ (AppRunnerFrame.update_state "label" "text" (PyStr "hello")
       (AppRunnerFrame.__init__ None, Sample.world)).2.1
    = AppRunnerFrame.__init__ None.
Proof.
  assert (Hin : ("label", "text")
                ∈ ({[("label", "text"); ("counter", "value")]} : gset PropId)).
  { apply elem_of_union_l. by apply elem_of_singleton. }
  pose proof (changed_write_dirties_dependents "label" "text" (PyStr "bye")
                (AppRunnerFrame.__init__ None) Sample.world _ Hin) as Hbye.
  pose proof (changed_write_dirties_dependents "label" "text" (PyStr "hello")
                (AppRunnerFrame.__init__ None) Sample.world _ Hin) as Hhello.
  cbn zeta in Hbye, Hhello.
  split; [exact Hin |].
  split; [exact (proj1 Hbye eq_refl) |].
  apply (proj1 (proj2 (proj2 Hhello))). discriminate.
Defined.

(** X10: [reset_state] guards event properties only.  A property flagged
    [backend_immutable], which [update_state] refuses to write, is reset
    like any other: StateAccessFrame returns whether the value differed from
    the default, AppRunnerFrame records the mutation in that case, and the
    store then holds the default. *)
Theorem reset_state_ignores_backend_immutable
    (key : Key) (prop_name : PropName) (c : PropCell)
    (self : AppRunnerFrame.t) (w : World) :
  State.cell key prop_name w = Some c →
  cell_is_event_prop c = false →
  let changed := negb (py_eqb (cell_value c) (cell_default c)) in
  let w2 := (State._reset key prop_name (looked_up key prop_name w)).2 in
  StateAccessFrame.reset_state key prop_name w = (Returns (PyBool changed), w2)
  ∧ AppRunnerFrame.reset_state key prop_name (self, w)
    = (Returns PyNone,
       (if changed then AppRunnerFrame.add_mutation (key, prop_name) self
        else self, w2))
  ∧ (changed = true →
     cell_value <$> State.cell key prop_name w2 = Some (cell_default c))
  ∧ (cell_backend_immutable c = true →
     ∀ value,
       (StateAccessFrame.update_state key prop_name value w).1
       = Raises (IllegalMutation prop_name)).
Proof.
  intros Hcell Hev. cbn zeta.
  pose proof (get_prop_found _ _ _ _ Hcell) as Hget.
  assert (Hcell1 : State.cell key prop_name (looked_up key prop_name w) = Some c)
    by exact Hcell.
  pose proof (reset_found _ _ _ _ Hcell1) as Hres.
  assert (Hbase : StateAccessFrame.reset_state key prop_name w
                  = (Returns (PyBool (negb (py_eqb (cell_value c)
                                              (cell_default c)))),
                     (State._reset key prop_name
                        (looked_up key prop_name w)).2)).
  { unfold StateAccessFrame.reset_state.
    erewrite bind_returns; [| exact Hget].
    cbn [descriptor is_event_prop]. rewrite Hev.
    erewrite bind_returns; [| exact Hres]. by rewrite Hres. }
  split; [exact Hbase |]. split; [| split].
  - rewrite app_reset_state_eq, Hbase. cbn [truthy].
    by destruct (negb (py_eqb (cell_value c) (cell_default c))).
  - intros Hchanged. rewrite Hres. cbn [snd].
    apply (updated_world_cell _ _ _ _ _ _ Hcell1).
    by destruct (py_eqb (cell_value c) (cell_default c)).
  - intros Him value. unfold StateAccessFrame.update_state.
    erewrite bind_returns; [| exact Hget].
    cbn [descriptor is_event_prop backend_immutable]. rewrite Hev, Him. done.
Qed.

Lemma reset_state_ignores_backend_immutable_witness :
  State.cell "window" "width" Sample.world = Some Sample.window_width
  ∧ (StateAccessFrame.reset_state "window" "width" Sample.world).1
    = Returns (PyBool true)
  ∧ cell_value
      <$> State.cell "window" "width"
            (StateAccessFrame.reset_state "window" "width" Sample.world).2
    = Some (PyInt 0)
  ∧ (StateAccessFrame.update_state "window" "width" (PyInt 0) Sample.world).1
    = Raises (IllegalMutation "width").
Proof.
  assert (Hcell : State.cell "window" "width" Sample.world
                  = Some Sample.window_width) by reflexivity.
  pose proof (reset_state_ignores_backend_immutable "window" "width"
                Sample.window_width Sample.app_self Sample.world
                Hcell eq_refl) as H.
  cbn zeta in H. destruct H as (Hbase & _ & Hval & Hupd).
  split; [exact Hcell |].
  split; [by rewrite Hbase |].
  split; [rewrite Hbase; exact (Hval eq_refl) | exact (Hupd eq_refl (PyInt 0))].
Defined.

(** ** Bookkeeping of UIUpdatesFrame over many updates *)

Lemma ui_update_state_eq key prop_name value self w :
  UIUpdatesFrame.update_state key prop_name value (self, w)
  = match State.get_prop key prop_name w with
    | (Returns prop, w1) =>
        match State._update key prop_name value w1 with
        | (Returns updated, w2) =>
            (Returns PyNone, ui_recorded key prop_name prop updated self w2)
        | (Raises e, w2) => (Raises e, (self, w2))
        end
    | (Raises (KeyError missing), w1) =>
        (Returns PyNone,
         (self,
          set_logger
            (logger w1
               ++ [(WARNING,
                    "Ignoring UI update on nonexistent key " +:+ key +:+ ".")])
            w1))
    | (Raises e, w1) => (Raises e, (self, w1))
    end.
Proof.
  destruct (State.get_prop key prop_name w) as [[prop | e] w1] eqn:Hget.
  - destruct (State._update key prop_name value w1)
      as [[updated | e] w2] eqn:Hupd.
    + by apply ui_update_state_by_report with w1.
    + unfold UIUpdatesFrame.update_state, try_except_KeyError.
      rewrite (super_returns _ _ _ _ _ Hget).
      erewrite bind_raises; [reflexivity | by apply super_raises].
  - unfold UIUpdatesFrame.update_state, try_except_KeyError.
    rewrite (super_raises _ _ _ _ _ Hget). by destruct e.
Qed.

Lemma ui_reset_state_eq key prop_name self w :
  UIUpdatesFrame.reset_state key prop_name (self, w)
  = match State.get_prop key prop_name w with
    | (Returns prop, w1) =>
        match State._reset key prop_name w1 with
        | (Returns updated, w2) =>
            (Returns PyNone, ui_recorded key prop_name prop updated self w2)
        | (Raises e, w2) => (Raises e, (self, w2))
        end
    | (Raises e, w1) => (Raises e, (self, w1))
    end.
Proof.
  destruct (State.get_prop key prop_name w) as [[prop | e] w1] eqn:Hget.
  - destruct (State._reset key prop_name w1) as [[updated | e] w2] eqn:Hres.
    + by apply ui_reset_state_by_report with w1.
    + unfold UIUpdatesFrame.reset_state.
      erewrite bind_returns; [| by apply super_returns].
      erewrite bind_raises; [reflexivity | by apply super_raises].
  - unfold UIUpdatesFrame.reset_state.
    erewrite bind_raises; [reflexivity | by apply super_raises].
Qed.

Lemma ui_recorded_grows key prop_name prop updated self w2 :
  let self' := (ui_recorded key prop_name prop updated self w2).1 in
  UIUpdatesFrame.mutations self ⊆ UIUpdatesFrame.mutations self'
  ∧ UIUpdatesFrame.event_mutations self ⊆ UIUpdatesFrame.event_mutations self'
  ∧ (UIUpdatesFrame.event_mutations self ⊆ UIUpdatesFrame.mutations self →
     UIUpdatesFrame.event_mutations self' ⊆ UIUpdatesFrame.mutations self').
Proof.
  unfold ui_recorded. destruct updated; [| done]. cbn.
  split; [apply union_subseteq_r |].
  destruct (is_event_prop prop).
  - split; [apply union_subseteq_r |]. intros Hsub.
    by apply union_mono_l.
  - split; [done |]. intros Hsub. etrans; [exact Hsub |].
    apply union_subseteq_r.
Qed.

Lemma ui_call_grows c self w :
  let self' := (ui_call c (self, w)).2.1 in
  UIUpdatesFrame.mutations self ⊆ UIUpdatesFrame.mutations self'
  ∧ UIUpdatesFrame.event_mutations self ⊆ UIUpdatesFrame.event_mutations self'
  ∧ (UIUpdatesFrame.event_mutations self ⊆ UIUpdatesFrame.mutations self →
     UIUpdatesFrame.event_mutations self' ⊆ UIUpdatesFrame.mutations self').
Proof.
  cbn zeta. destruct c as [key p v | key p | prop v]; cbn [ui_call].
  - rewrite ui_update_state_eq.
    destruct (State.get_prop key p w) as [[prop | e] w1].
    + destruct (State._update key p v w1) as [[updated | e] w2]; [| done].
      apply ui_recorded_grows.
    + by destruct e.
  - rewrite ui_reset_state_eq.
    destruct (State.get_prop key p w) as [[prop | e] w1]; [| done].
    destruct (State._reset key p w1) as [[updated | e] w2]; [| done].
    apply ui_recorded_grows.
  - done.
Qed.

(** X11: over any sequence of inbound calls on a UIUpdatesFrame
    ([update_state], [reset_state], [trigger_event]), failing or not,
    [mutations] and [event_mutations] only grow and [event_mutations] stays
    a subset of [mutations]; in particular this holds from a freshly created
    frame on. *)
Theorem ui_event_mutations_within_mutations
    (cs : list UICall) (self : UIUpdatesFrame.t) (w : World) :
  let self' := (ui_calls cs (self, w)).1 in
  let fresh' := (ui_calls cs (UIUpdatesFrame.__init__, w)).1 in
  UIUpdatesFrame.mutations self ⊆ UIUpdatesFrame.mutations self'
  ∧ UIUpdatesFrame.event_mutations self ⊆ UIUpdatesFrame.event_mutations self'
  ∧ (UIUpdatesFrame.event_mutations self ⊆ UIUpdatesFrame.mutations self →
     UIUpdatesFrame.event_mutations self' ⊆ UIUpdatesFrame.mutations self')
  ∧ UIUpdatesFrame.event_mutations fresh' ⊆ UIUpdatesFrame.mutations fresh'.
Proof.
  cbn zeta.
  assert (H : ∀ self w,
    UIUpdatesFrame.mutations self
      ⊆ UIUpdatesFrame.mutations (ui_calls cs (self, w)).1
    ∧ UIUpdatesFrame.event_mutations self
      ⊆ UIUpdatesFrame.event_mutations (ui_calls cs (self, w)).1
    ∧ (UIUpdatesFrame.event_mutations self ⊆ UIUpdatesFrame.mutations self →
       UIUpdatesFrame.event_mutations (ui_calls cs (self, w)).1
         ⊆ UIUpdatesFrame.mutations (ui_calls cs (self, w)).1)).
  { clear self w. induction cs as [| c cs IH]; intros self w; [done |].
    cbn [ui_calls].
    pose proof (ui_call_grows c self w) as Hc. cbn zeta in Hc.
    destruct (ui_call c (self, w)) as [r [self1 w1]]. cbn [fst snd] in *.
    destruct Hc as (Hm1 & He1 & Hi1), (IH self1 w1) as (Hm2 & He2 & Hi2).
    split; [by etrans |]. split; [by etrans |]. auto. }
  destruct (H self w) as (Hm & He & Hi).
  do 3 (split; [done |]).
  apply (H UIUpdatesFrame.__init__ w). done.
Qed.

(** ** From the inbound updates to the next application run *)

(** X12: a freshly created AppRunnerFrame has empty [deps], [mutations],
    [keys] and scope stack, and takes the given set as
    [prev_frame_mutations], [None] counting as the empty set.  So before any
    write, a set of dependencies is dirty exactly when it shares a pair with
    the previous frame's mutations, and never when none were given. *)
Theorem fresh_frame_dirty_from_previous_mutations
    (prev : option (gset PropId)) (deps : gset PropId) :
  let f := AppRunnerFrame.__init__ prev in
  AppRunnerFrame.prev_frame_mutations f = default ∅ prev
  ∧ AppRunnerFrame.deps f = ∅
  ∧ AppRunnerFrame.mutations f = ∅
  ∧ AppRunnerFrame.keys f = ∅
  ∧ AppRunnerFrame.scope_stack f = []
  ∧ (AppRunnerFrame.deps_are_dirty f deps = true
     ↔ ∃ d, d ∈ deps ∧ d ∈ default ∅ prev)
  ∧ AppRunnerFrame.deps_are_dirty (AppRunnerFrame.__init__ None) deps = false.
Proof.
  cbn zeta.
  assert (Hprev : AppRunnerFrame.prev_frame_mutations
                    (AppRunnerFrame.__init__ prev) = default ∅ prev).
  { destruct prev as [s |]; [| done]. cbn. by case_bool_decide. }
  split; [exact Hprev |]. do 4 (split; [done |]). split.
  - rewrite dirty_iff, Hprev. split.
    + intros (d & Hd & [Hm | Hp]); [| by eauto].
      by apply not_elem_of_empty in Hm.
    + intros (d & Hd & Hp). eauto.
  - apply not_true_is_false. rewrite dirty_iff.
    intros (d & _ & [Hm | Hp]);
      [by apply not_elem_of_empty in Hm | by apply not_elem_of_empty in Hp].
Qed.

(** X13: what a UIUpdatesFrame records reaches the next run.  When an
    inbound [update_state] or [reset_state] changed a property, an
    AppRunnerFrame created with that frame's [mutations] as its
    [prev_frame_mutations] reports every set of dependencies containing the
    pair as dirty, before the application has written anything. *)
Theorem ui_change_dirties_next_run
    (key : Key) (prop_name : PropName) (ui : UIUpdatesFrame.t)
    (prop : StoredProp) (w w1 w2 : World) (deps : gset PropId) :
  State.get_prop key prop_name w = (Returns prop, w1) →
  (key, prop_name) ∈ deps →
  (∀ value,
     State._update key prop_name value w1 = (Returns true, w2) →
     let ui' := (UIUpdatesFrame.update_state key prop_name value (ui, w)).2.1 in
     AppRunnerFrame.deps_are_dirty
       (AppRunnerFrame.__init__ (Some (UIUpdatesFrame.mutations ui'))) deps
     = true)
  ∧ (State._reset key prop_name w1 = (Returns true, w2) →
     let ui' := (UIUpdatesFrame.reset_state key prop_name (ui, w)).2.1 in
     AppRunnerFrame.deps_are_dirty
       (AppRunnerFrame.__init__ (Some (UIUpdatesFrame.mutations ui'))) deps
     = true).
Proof.
  intros Hget Hin.
  assert (Hdirty : ∀ s : gset PropId,
            (key, prop_name) ∈ s →
            AppRunnerFrame.deps_are_dirty
              (AppRunnerFrame.__init__ (Some s)) deps = true).
  { intros s Hs. apply dirty_iff. exists (key, prop_name).
    split; [done |]. right. cbn. case_bool_decide as He; [| done].
    rewrite He in Hs. by apply not_elem_of_empty in Hs. }
  split.
  - intros value Hupd. cbn zeta.
    rewrite (ui_update_state_by_report _ _ _ _ _ _ _ _ _ Hget Hupd).
    apply Hdirty. cbn. apply elem_of_union_l. by apply elem_of_singleton.
  - intros Hres. cbn zeta.
    rewrite (ui_reset_state_by_report _ _ _ _ _ _ _ _ Hget Hres).
    apply Hdirty. cbn. apply elem_of_union_l. by apply elem_of_singleton.
Qed.

Lemma ui_change_dirties_next_run_witness :
  AppRunnerFrame.deps_are_dirty
    (AppRunnerFrame.__init__
       (Some (UIUpdatesFrame.mutations
                (UIUpdatesFrame.update_state "label" "text" (PyStr "bye")
                   (Sample.ui_self, Sample.world)).2.1)))
    {[("label", "text")]}
  = true.
Proof.
  assert (Hin : ("label", "text") ∈ ({[("label", "text")]} : gset PropId))
    by (by apply elem_of_singleton).
  exact (proj1 (ui_change_dirties_next_run "label" "text" Sample.ui_self
                  (descriptor "label" "text" Sample.label_text)
                  Sample.world _ _ _ eq_refl Hin)
           (PyStr "bye") eq_refl).
Defined.

(** ** Triggering events *)

Lemma get_prop_missing k p w :
  State.cell k p w = None →
  ∃ missing,
    State.get_prop k p w = (Raises (UnknownProperty missing), looked_up k p w).
Proof.
  intros Hcell.
  destruct (State.get_prop k p w) as [[prop | e] w1] eqn:Hget;
    destruct (get_prop_inv _ _ _ _ _ Hget) as (-> & Hr).
  - destruct Hr as (c & Hc & _). congruence.
  - destruct Hr as (_ & missing & ->). by exists missing.
Qed.



(** ** ResetUIEventsFrame *)

Lemma put_value_cell k p v c k' p' w :
  State.cell k p w = Some c →
  State.cell k' p' (State.put_value k p v w)
  = if decide ((k', p') = (k, p)) then Some (with_value c v)
    else State.cell k' p' w.
Proof.
  intros Hc. unfold State.put_value, State.cell in *.
  destruct (state w !! k) as [props |] eqn:Hk; [| done]. cbn in Hc.
  rewrite Hc. cbn.
  destruct (decide (k' = k)) as [-> | Hne].
  - rewrite lookup_insert_eq, Hk. cbn.
    destruct (decide (p' = p)) as [-> | Hnp].
    + rewrite lookup_insert_eq. by rewrite decide_True.
    + rewrite lookup_insert_ne by done. rewrite decide_False; [done |].
      by intros [= ?].
  - rewrite lookup_insert_ne by done. rewrite decide_False; [done |].
    by intros [= ? ?].
Qed.

(** What one call on a ResetUIEventsFrame may do to a stored property. *)
Lemma rue_call_cell call w k p c :
  State.cell k p w = Some c →
  ∃ v, State.cell k p (rue_call call w).2 = Some (with_value c v)
       ∧ (v = cell_value c
          ∨ (cell_is_event_prop c = true ∧ v = cell_default c)).
Proof.
  intros Hcell.
  assert (Hsame : ∃ v, State.cell k p w = Some (with_value c v)
                       ∧ (v = cell_value c
                          ∨ (cell_is_event_prop c = true
                             ∧ v = cell_default c))).
  { exists (cell_value c). split; [| by left]. rewrite Hcell. by destruct c. }
  destruct call as [key q | key pv | key q | key q v | key | prop v | key q];
    try exact Hsame.
  cbn [rue_call]. unfold ResetUIEventsFrame.reset_state.
  destruct (State.cell key q w) as [c' |] eqn:Hc'.
  - erewrite bind_returns; [| by apply get_prop_found].
    cbn [descriptor is_event_prop].
    destruct (cell_is_event_prop c') eqn:Hev; cbn [negb]; [| exact Hsame].
    assert (Hc1 : State.cell key q (looked_up key q w) = Some c') by exact Hc'.
    erewrite bind_returns; [| by apply reset_found]. cbn [fst snd].
    unfold updated_world.
    destruct (py_eqb (cell_value c') (cell_default c')); [exact Hsame |].
    unfold mret, Py_ret, ret. cbn [snd].
    rewrite (put_value_cell key q (cell_default c') c' k p) by exact Hc'.
    destruct (decide ((k, p) = (key, q))) as [[= -> ->] | Hne].
    + assert (c' = c) as -> by congruence.
      exists (cell_default c). split; [done | by right].
    + exact Hsame.
  - destruct (get_prop_missing _ _ _ Hc') as (missing & Hget).
    erewrite bind_raises; [| exact Hget]. exact Hsame.
Qed.

Lemma rue_call_frame call w :
  let w' := (rue_call call w).2 in
  ui_prop_state w' = ui_prop_state w
  ∧ task_mutations w' = task_mutations w
  ∧ events w' = events w
  ∧ logger w' = logger w
  ∧ _current_frame w' = _current_frame w.
Proof.
  cbn zeta.
  destruct call as [key q | key pv | key q | key q v | key | prop v | key q];
    try done.
  cbn [rue_call]. unfold ResetUIEventsFrame.reset_state.
  destruct (State.cell key q w) as [c' |] eqn:Hc'.
  - erewrite bind_returns; [| by apply get_prop_found].
    cbn [descriptor is_event_prop].
    destruct (cell_is_event_prop c'); cbn [negb]; [| done].
    assert (Hc1 : State.cell key q (looked_up key q w) = Some c') by exact Hc'.
    erewrite bind_returns; [| by apply reset_found].
    unfold mret, Py_ret, ret. cbn [fst snd].
    pose proof (updated_world_frame key q c' (cell_default c')
                  (call_state__reset key q) (looked_up key q w)) as H.
    cbn zeta in H. destruct H as (_ & -> & -> & -> & -> & ->). done.
  - destruct (get_prop_missing _ _ _ Hc') as (missing & Hget).
    erewrite bind_raises; [| exact Hget]. done.
Qed.

(** X15: whatever calls are made on a ResetUIEventsFrame, in any number
    and order and with any arguments, every stored property keeps its flags
    and default, a property that is not an event property keeps its value,
    and an event property holds its old value or its default.  Nothing is
    enqueued, triggered, pushed to the outgoing-diff tracker or logged. *)
Theorem reset_ui_events_frame_touches_event_props_only
    (cs : list ResetUIEventsCall) (w : World) :
  let w' := rue_calls cs w in
  (∀ k p c, State.cell k p w = Some c →
            ∃ v, State.cell k p w' = Some (with_value c v)
                 ∧ (v = cell_value c
                    ∨ (cell_is_event_prop c = true ∧ v = cell_default c)))
  ∧ (∀ k p c, State.cell k p w = Some c → cell_is_event_prop c = false →
              State.cell k p w' = Some c)
  ∧ ui_prop_state w' = ui_prop_state w
  ∧ task_mutations w' = task_mutations w
  ∧ events w' = events w
  ∧ logger w' = logger w
  ∧ _current_frame w' = _current_frame w.
Proof.
  cbn zeta.
  assert (Hcells : ∀ k p c, State.cell k p w = Some c →
            ∃ v, State.cell k p (rue_calls cs w) = Some (with_value c v)
                 ∧ (v = cell_value c
                    ∨ (cell_is_event_prop c = true ∧ v = cell_default c))).
  { revert w. induction cs as [| call cs IH]; intros w k p c Hcell.
    - exists (cell_value c). split; [| by left]. cbn. rewrite Hcell.
      by destruct c.
    - cbn [rue_calls].
      destruct (rue_call_cell call w k p c Hcell) as (v1 & Hc1 & Hv1).
      destruct (IH _ k p _ Hc1) as (v2 & Hc2 & Hv2).
      exists v2. split; [exact Hc2 |]. cbn in Hv2.
      destruct Hv2 as [-> | [Hev ->]]; [exact Hv1 | by right]. }
  split; [exact Hcells |]. split.
  - intros k p c Hcell Hev.
    destruct (Hcells k p c Hcell) as (v & -> & [-> | [Hev' _]]);
      [by destruct c | congruence].
  - clear Hcells. revert w.
    induction cs as [| call cs IH]; intros w; [done |].
    cbn [rue_calls].
    pose proof (rue_call_frame call w) as H. cbn zeta in H.
    destruct H as (<- & <- & <- & <- & <-). apply IH.
Qed.

Lemma reset_ui_events_frame_touches_event_props_only_witness :
  State.cell "counter" "value"
    (rue_calls [rue_reset_state "button" "clicked";
                rue_update_state "counter" "value" (PyInt 9);
                rue_reset_state "counter" "value"] Sample.world)
  = Some Sample.counter_value
  ∧ cell_value
      <$> State.cell "button" "clicked"
            (rue_calls [rue_reset_state "button" "clicked";
                        rue_update_state "counter" "value" (PyInt 9);
                        rue_reset_state "counter" "value"] Sample.world)
    = Some (PyBool false).
Proof.
  pose proof (reset_ui_events_frame_touches_event_props_only
                [rue_reset_state "button" "clicked";
                 rue_update_state "counter" "value" (PyInt 9);
                 rue_reset_state "counter" "value"] Sample.world) as H.
  cbn zeta in H. destruct H as (_ & Hkeep & _).
  split; [exact (Hkeep "counter" "value" Sample.counter_value eq_refl eq_refl) |].
  reflexivity.
Defined.

(** ** The scope stack *)

Lemma all_but_last {A} (l : list A) :
  l ≠ [] → ∃ top, l = take (length l - 1) l ++ [top].
Proof.
  destruct l as [| y l' _] using rev_ind; [done |]. intros _.
  exists y. rewrite length_app. cbn [length].
  replace (length l' + 1 - 1) with (length l') by lia.
  by rewrite take_app_length.
Qed.

Lemma pop_push_scope scope_key self :
  AppRunnerFrame.pop_scope (AppRunnerFrame.push_scope scope_key self) = inr self.
Proof.
  unfold AppRunnerFrame.pop_scope, AppRunnerFrame.push_scope.
  destruct self as [prev ks ds ms ss]. cbn.
  destruct (ss ++ [scope_key]) as [| x l] eqn:Happ.
  - by destruct ss.
  - rewrite <- Happ. f_equal. unfold AppRunnerFrame.set_scope_stack. cbn.
    f_equal. rewrite length_app. cbn.
    replace (length ss + 1 - 1) with (length ss) by lia.
    by rewrite take_app_length.
Qed.

(** X16: [pop_scope] undoes the last [push_scope], giving back the frame
    as it was; scopes come off in the reverse order of their pushing;
    [pop_scope] fails (IndexError) exactly on an empty stack, as on a fresh
    frame; and neither operation changes [deps], [mutations] or
    [prev_frame_mutations], so dirtiness is unaffected. *)
Theorem scope_stack_is_lifo
    (scope_key other_key : string) (self : AppRunnerFrame.t)
    (deps : gset PropId) :
  AppRunnerFrame.pop_scope (AppRunnerFrame.push_scope scope_key self) = inr self
  ∧ AppRunnerFrame.pop_scope
      (AppRunnerFrame.push_scope other_key
         (AppRunnerFrame.push_scope scope_key self))
    = inr (AppRunnerFrame.push_scope scope_key self)
  ∧ ((∃ e, AppRunnerFrame.pop_scope self = inl e)
     ↔ AppRunnerFrame.scope_stack self = [])
  ∧ (∀ prev, AppRunnerFrame.pop_scope (AppRunnerFrame.__init__ prev)
             = inl (AppRunnerFrame.IndexError "pop from empty list"))
  ∧ AppRunnerFrame.deps_are_dirty (AppRunnerFrame.push_scope scope_key self)
      deps
    = AppRunnerFrame.deps_are_dirty self deps
  ∧ (∀ self', AppRunnerFrame.pop_scope self = inr self' →
              AppRunnerFrame.deps self' = AppRunnerFrame.deps self
              ∧ AppRunnerFrame.mutations self' = AppRunnerFrame.mutations self
              ∧ AppRunnerFrame.deps_are_dirty self' deps
                = AppRunnerFrame.deps_are_dirty self deps
              ∧ ∃ top, AppRunnerFrame.scope_stack self
                       = AppRunnerFrame.scope_stack self' ++ [top]).
Proof.
  split; [apply pop_push_scope |]. split; [apply pop_push_scope |].
  split; [| split; [done |]; split; [done |]].
  - unfold AppRunnerFrame.pop_scope.
    destruct (AppRunnerFrame.scope_stack self) as [| x l].
    + split; [done | intros _; eauto].
    + split; [by intros [e [=]] | done].
  - intros self'. unfold AppRunnerFrame.pop_scope.
    destruct (AppRunnerFrame.scope_stack self) as [| x l] eqn:Hss; [done |].
    intros [= <-]. do 3 (split; [done |]).
    cbn [AppRunnerFrame.set_scope_stack AppRunnerFrame.scope_stack].
    by apply (all_but_last (x :: l)).
Qed.

(** ** Stale property names in UIUpdatesFrame *)

(** X17: [update_state] of a UIUpdatesFrame tolerates every failed lookup,
    not only a missing key.  When the key is in the store but has no such
    property, the call still returns [None] with the frame's sets and the
    store untouched, and the logged warning speaks of a nonexistent key,
    naming the key that does exist; [reset_state] with the same arguments
    fails with UnknownProperty. *)
Theorem stale_prop_name_tolerated_by_update_only
    (key : Key) (prop_name : PropName) (value : PyValue)
    (props : gmap PropName PropCell) (self : UIUpdatesFrame.t) (w : World) :
  state w !! key = Some props →
  props !! prop_name = None →
  UIUpdatesFrame.update_state key prop_name value (self, w)
  = (Returns PyNone,
     (self,
      set_logger
        (logger w
           ++ [(WARNING, "Ignoring UI update on nonexistent key " +:+ key +:+ ".")])
        (looked_up key prop_name w)))
  ∧ UIUpdatesFrame.reset_state key prop_name (self, w)
    = (Raises (UnknownProperty prop_name), (self, looked_up key prop_name w)).
Proof.
  intros Hkey Hprop.
  assert (Hget : State.get_prop key prop_name w
                 = (Raises (UnknownProperty prop_name),
                    looked_up key prop_name w)).
  { unfold State.get_prop.
    erewrite bind_returns; [| reflexivity].
    erewrite bind_raises; [reflexivity |].
    unfold State.lookup_cell.
    erewrite bind_returns; [| unfold gets; reflexivity].
    cbn. by rewrite Hkey, Hprop. }
  split.
  - by rewrite ui_update_state_eq, Hget.
  - by rewrite ui_reset_state_eq, Hget.
Qed.

Lemma stale_prop_name_tolerated_by_update_only_witness :
  state Sample.world !! "counter" = Some {[ "value" := Sample.counter_value ]}
  ∧ (UIUpdatesFrame.update_state "counter" "colour" (PyStr "red")
       (Sample.ui_self, Sample.world)).1 = Returns PyNone
  ∧ logger (UIUpdatesFrame.update_state "counter" "colour" (PyStr "red")
              (Sample.ui_self, Sample.world)).2.2
    = [(WARNING, "Ignoring UI update on nonexistent key counter.")]
  ∧ (UIUpdatesFrame.reset_state "counter" "colour"
       (Sample.ui_self, Sample.world)).1 = Raises (UnknownProperty "colour").
Proof.
  assert (Hkey : state Sample.world !! "counter"
                 = Some {[ "value" := Sample.counter_value ]}) by reflexivity.
  assert (Hprop : ({[ "value" := Sample.counter_value ]}
                     : gmap PropName PropCell) !! "colour" = None)
    by reflexivity.
  pose proof (stale_prop_name_tolerated_by_update_only "counter" "colour"
                (PyStr "red") _ Sample.ui_self Sample.world Hkey Hprop)
    as (Hupd & Hres).
  split; [exact Hkey |].
  split; [by rewrite Hupd |]. split; [by rewrite Hupd | by rewrite Hres].
Defined.
